(** * LLM_QA_CLI: the question normalizer, the answer requester and the
      console loop of [LLM_QA_CLI.py], embedded and verified.

    Python values are modelled as the program has them: a [str] is a list
    of Unicode code points, a decoded JSON body is a tree of dicts, lists,
    strings and numbers, an exception is a value of an error type, and
    the effects of the program (console output, HTTP requests) are events
    appended to a trace. *)

From Stdlib Require Import List NArith ZArith Bool Ascii String Lia.
From Stdlib Require Import DecimalString SpecFloat.
Import ListNotations.

Set Warnings "-register-all".
Open Scope list_scope.

(* ================================================================= *)
(** ** Python strings *)

Module Str.

Local Open Scope N_scope.

(** A Python [str] is a sequence of code points. *)
Definition char : Type := N.
Definition str : Type := list char.

(** A literal of the source, written as a Rocq string. *)
Definition lit (s : string) : str :=
  map N_of_ascii (list_ascii_of_string s).

Definition str_eqb (a b : str) : bool :=
  if list_eq_dec N.eq_dec a b then true else false.

Definition SPACE : char := 32.
Definition NEWLINE : char := 10.

(** [str.isspace] on one code point, which is also what [\s] matches in a
    [str] pattern of [re] and what [str.split()] and [str.strip()] cut
    at: the characters CPython lists as whitespace. *)
Definition isspace (c : char) : bool :=
  ((0x09 <=? c) && (c <=? 0x0D)) || ((0x1C <=? c) && (c <=? 0x20))
  || (c =? 0x85) || (c =? 0xA0) || (c =? 0x1680)
  || ((0x2000 <=? c) && (c <=? 0x200A))
  || (c =? 0x2028) || (c =? 0x2029) || (c =? 0x202F)
  || (c =? 0x205F) || (c =? 0x3000).

Definition is_ascii_upper (c : char) : bool := (65 <=? c) && (c <=? 90).
Definition is_ascii_lower (c : char) : bool := (97 <=? c) && (c <=? 122).
Definition is_digit (c : char) : bool := (48 <=? c) && (c <=? 57).

Definition ascii_lower (c : char) : char :=
  if is_ascii_upper c then c + 32 else c.


(** [sep.join(tokens)]. *)
Fixpoint join (sep : str) (tokens : list str) : str :=
  match tokens with
  | [] => []
  | [t] => t
  | t :: ts => t ++ sep ++ join sep ts
  end.

(** [s.split()]: the maximal runs of non-whitespace characters of [s], in
    order; no token is empty. *)
Fixpoint split (s : str) : list str :=
  match s with
  | [] => []
  | c :: r =>
      let rest := split r in
      if isspace c then rest
      else match r with
           | [] => [[c]]
           | d :: _ =>
               if isspace d then [c] :: rest
               else match rest with
                    | t :: ts => (c :: t) :: ts
                    | [] => [[c]]
                    end
           end
  end.

(** [s.lstrip()], [s.rstrip()] and [s.strip()]. *)
Fixpoint lstrip (s : str) : str :=
  match s with
  | [] => []
  | c :: r => if isspace c then lstrip r else s
  end.

Definition rstrip (s : str) : str := rev (lstrip (rev s)).

Definition strip (s : str) : str := rstrip (lstrip s).

(** [needle in hay] for two strings. *)
Definition contains (needle hay : str) : Prop :=
  exists before after, hay = before ++ needle ++ after.

(** [str(n)] for an [int]. *)
Definition str_of_int (n : Z) : str :=
  lit (NilEmpty.string_of_int (Z.to_int n)).

Section Lower.

(** The lowercase mapping of a character that is neither ASCII nor
    whitespace, as the Unicode tables of the interpreter give it: the
    string and the position are arguments because the mapping of a
    capital sigma depends on its neighbours, and the result is a string
    because a mapping may expand to several code points. *)
Variable unicode_lower : str -> nat -> char -> str.

Definition lower_char (s : str) (i : nat) (c : char) : str :=
  if c <? 128 then [ascii_lower c]
  else if isspace c then [c]
  else unicode_lower s i c.

Fixpoint lower_from (s : str) (i : nat) (rest : str) : str :=
  match rest with
  | [] => []
  | c :: r => lower_char s i c ++ lower_from s (S i) r
  end.

(** [s.lower()]. *)
Definition lower (s : str) : str := lower_from s 0 s.

End Lower.

End Str.
Import Str.

(* ================================================================= *)
(** ** Decoded JSON, responses and exceptions *)

(** What [response.json()] builds: [None], [bool], [int], [float], [str],
    [list] and [dict].  A dict is the list of its items, a key being
    looked up from the front. *)
Inductive json : Type :=
| JNull
| JBool (b : bool)
| JInt (n : Z)
| JFloat (x : spec_float)
| JStr (s : str)
| JList (items : list json)
| JDict (fields : list (str * json)).

Fixpoint lookup (key : str) (fields : list (str * json)) : option json :=
  match fields with
  | [] => None
  | (k, v) :: rest => if str_eqb k key then Some v else lookup key rest
  end.

(** The truth value of an object, as [if], [and] and [not] take it. *)
Definition truthy (v : json) : bool :=
  match v with
  | JNull => false
  | JBool b => b
  | JInt n => negb (n =? 0)%Z
  | JFloat (S754_zero _) => false
  | JFloat _ => true
  | JStr [] => false
  | JStr _ => true
  | JList [] => false
  | JList _ => true
  | JDict [] => false
  | JDict _ => true
  end.

(** A [requests.Response]: the status, the body as text, and the body as
    [json()] decodes it ([None] when it is not JSON). *)
Record response : Type := {
  status_code : Z;
  text : str;
  json_body : option json
}.

(** The subclasses of [Exception] that reach the program.  Of the
    [requests.exceptions] family: [HTTPError], with its [response]
    attribute, which is the response when [raise_for_status] raises it
    and [None] when the error was made without one; [ConnectionError],
    standing also for its subclasses [SSLError] and [ProxyError];
    [ConnectTimeout], which the library derives from BOTH
    [ConnectionError] and [Timeout]; [ReadTimeout], derived from
    [Timeout]; [Timeout] itself; [JSONDecodeError].  Of the interpreter:
    the errors of a subscript, of an attribute access, of [input()] and
    of the encoding of a text for the console.  [OtherException] is any
    other subclass of [Exception]. *)
Inductive exception : Type :=
| HTTPError (resp : option response)
| ConnectionError (msg : str)
| ConnectTimeout (msg : str)
| ReadTimeout (msg : str)
| Timeout (msg : str)
| JSONDecodeError
| KeyError (key : json)
| IndexError (container : json)
| TypeError (operand : json)
| AttributeError (object : json) (attribute : str)
| EOFError
| UnicodeEncodeError (text : str)
| OtherException (msg : str).

(** [isinstance(e, requests.exceptions.ConnectionError)] and
    [isinstance(e, requests.exceptions.Timeout)]. *)
Definition is_ConnectionError (e : exception) : bool :=
  match e with
  | ConnectionError _ | ConnectTimeout _ => true
  | _ => false
  end.

Definition is_Timeout (e : exception) : bool :=
  match e with
  | Timeout _ | ConnectTimeout _ | ReadTimeout _ => true
  | _ => false
  end.

(** A call returns a value or raises. *)
Inductive result (A : Type) : Type :=
| Return (a : A)
| Raise (e : exception).
Arguments Return {A} a.
Arguments Raise {A} e.

Definition rbind {A B} (r : result A) (k : A -> result B) : result B :=
  match r with
  | Return a => k a
  | Raise e => Raise e
  end.

Declare Scope result_scope.
Delimit Scope result_scope with result.
Notation "x <- c ;; k" := (rbind c (fun x => k))
  (at level 61, c at next level, right associativity) : result_scope.

(** ** Operations on decoded JSON *)

(** [v.get(key)] and [v.get(key, default)]: only a dict has [get]. *)
Definition dict_get (v : json) (key : str) (default : json) : result json :=
  match v with
  | JDict fields =>
      match lookup key fields with
      | Some x => Return x
      | None => Return default
      end
  | _ => Raise (AttributeError v (lit "get"))
  end.

(** [v[key]] for a string key. *)
Definition getitem (v : json) (key : str) : result json :=
  match v with
  | JDict fields =>
      match lookup key fields with
      | Some x => Return x
      | None => Raise (KeyError (JStr key))
      end
  | _ => Raise (TypeError v)
  end.

(** [v[0]]: the first item of a list, the first character of a string;
    the keys of a decoded dict are strings, so [0] is never one. *)
Definition getitem0 (v : json) : result json :=
  match v with
  | JList (x :: _) => Return x
  | JList [] => Raise (IndexError v)
  | JStr (c :: _) => Return (JStr [c])
  | JStr [] => Raise (IndexError v)
  | JDict _ => Raise (KeyError (JInt 0))
  | _ => Raise (TypeError v)
  end.

(* ================================================================= *)
(** ** Effects: the trace of a run *)

(** The request [requests.post(url, headers=..., json=..., timeout=...)]
    sends. *)
Record request : Type := {
  url : str;
  headers : list (str * str);
  payload : json;
  timeout : Z
}.

(** What the network does with one request: a response comes back, or
    [requests.post] raises an [Exception].  A [KeyboardInterrupt] that
    arrives while the request is under way is a signal from outside the
    call and has no place here; the loop meets it at [input]. *)
Inductive post_outcome : Type :=
| Responds (r : response)
| Fails (e : exception).

(** What [input(prompt)] does: the user enters a line, the input ends
    ([EOFError]), or the user interrupts ([KeyboardInterrupt], which is
    not an [Exception]). *)
Inductive input_outcome : Type :=
| Line (s : str)
| EndOfInput
| Interrupted.

(** The observable steps of the program, in the order they happen. *)
Inductive event : Type :=
| Prompted (prompt : str)        (* input(prompt) was called *)
| Printed (line : str)           (* print(line) *)
| Normalized (question : str)    (* preprocess_question(question) was called *)
| Posted (req : request).        (* requests.post was called *)

Definition trace : Type := list event.

Definition is_Posted (e : event) : bool :=
  match e with Posted _ => true | _ => false end.

Definition is_Normalized (e : event) : bool :=
  match e with Normalized _ => true | _ => false end.

(** The requests a trace holds. *)
Definition posts (t : trace) : list event := filter is_Posted t.

(** A computation reads the trace so far and returns a value or raises,
    with the trace extended by what it did. *)
Definition io (A : Type) : Type := trace -> result A * trace.

Definition ret {A} (a : A) : io A := fun t => (Return a, t).

Definition throw {A} (e : exception) : io A := fun t => (Raise e, t).

Definition bind {A B} (c : io A) (k : A -> io B) : io B :=
  fun t =>
    match c t with
    | (Return a, t') => k a t'
    | (Raise e, t') => (Raise e, t')
    end.

(** [try: body except Exception as e: handler(e)]. *)
Definition try_except {A} (body : io A) (handler : exception -> io A) : io A :=
  fun t =>
    match body t with
    | (Return a, t') => (Return a, t')
    | (Raise e, t') => handler e t'
    end.

Definition lift {A} (r : result A) : io A := fun t => (r, t).

Definition emit (e : event) : io unit := fun t => (Return tt, t ++ [e]).

(** [print(line)] for a line of ASCII text, which every console
    encoding has: the literals of the program, the processed query, and
    the text the interpreter gives an error it raised, where a character
    outside ASCII is written as an escape. *)
Definition print (line : str) : io unit := emit (Printed line).

Declare Scope io_scope.
Delimit Scope io_scope with io.
Notation "x <- c ;; k" := (bind c (fun x => k))
  (at level 61, c at next level, right associativity) : io_scope.
Notation "c ;; k" := (bind c (fun _ => k))
  (at level 61, right associativity) : io_scope.

(* ================================================================= *)
(** ** The program *)

Definition MODEL_NAME : str := lit "gemini-2.5-flash-preview-09-2025".

Definition SYSTEM_INSTRUCTION : str :=
  lit "You are a concise question-answering system. Answer the user's query directly and accurately, avoiding conversational filler.".

Definition GOODBYE : str := NEWLINE :: lit "Exiting Q&A system. Goodbye!".

(** ** Sample interpreters, bodies and networks, to run the program *)

(** A table that leaves every character outside ASCII alone. *)
Definition no_case : str -> nat -> char -> str := fun _ _ c => [c].

(** A table with two entries of the Unicode one: the Kelvin sign
    lowercases to the letter k, and E with acute accent to its small
    form. *)
Definition two_cases : str -> nat -> char -> str :=
  fun _ _ c =>
    if (c =? 0x212A)%N then [0x6B%N]
    else if (c =? 0xC9)%N then [0xE9%N]
    else [c].

Definition plain_repr : json -> str := fun _ => lit "<object>".

Definition plain_str_exception : exception -> str := fun _ => lit "<exception>".

(** A console that encodes every character, and one that has ASCII
    only. *)
Definition utf8_console : char -> bool := fun _ => true.

Definition ascii_console : char -> bool := fun _ => false.

(** A network that treats every request alike. *)
Definition always (o : post_outcome) : nat -> request -> post_outcome :=
  fun _ _ => o.

Definition quoted (s : string) : str := (34%N :: lit s) ++ [34%N].

(** The body [{candidates:[{content:{parts:[{text:<answer>}]}}]}]. *)
Definition answer_body (answer : json) : json :=
  JDict [ (lit "candidates",
           JList [ JDict [ (lit "content",
                            JDict [ (lit "parts",
                                     JList [ JDict [ (lit "text", answer) ] ]) ]) ] ]) ].

Definition paris_response : response :=
  {| status_code := 200;
     text := lit "{" ++ quoted "candidates" ++ lit ": [{" ++ quoted "content"
             ++ lit ": {" ++ quoted "parts" ++ lit ": [{" ++ quoted "text"
             ++ lit ": " ++ quoted "Paris" ++ lit "}]}}]}";
     json_body := Some (answer_body (JStr (lit "Paris"))) |}.

(** The same shape with a number where the text should be. *)
Definition number_response : response :=
  {| status_code := 200;
     text := lit "{" ++ quoted "candidates" ++ lit ": [{" ++ quoted "content"
             ++ lit ": {" ++ quoted "parts" ++ lit ": [{" ++ quoted "text"
             ++ lit ": 42}]}}]}";
     json_body := Some (answer_body (JInt 42)) |}.

Definition server_error : response :=
  {| status_code := 500;
     text := lit "Internal Server Error";
     json_body := None |}.

Definition SAMPLE_KEY : option str := Some (lit "sample-key").

(** An answer with a character outside ASCII, the snowman. *)
Definition snowman_response : response :=
  {| status_code := 200;
     text := lit "{...}";
     json_body := Some (answer_body (JStr (lit "Snow " ++ [0x2603%N]))) |}.

(** A 404 whose body has the success shape all the same. *)
Definition not_found : response :=
  {| status_code := 404;
     text := lit "model not found";
     json_body := Some (answer_body (JStr (lit "Paris"))) |}.

(** A success status with a page of HTML for a body. *)
Definition html_page : response :=
  {| status_code := 200;
     text := lit "<html>Service unavailable</html>";
     json_body := None |}.

(** The error shape [{error:{message:<string>}}]. *)
Definition quota_fields : list (str * json) :=
  [ (lit "error", JDict [ (lit "code", JInt 429);
                          (lit "message", JStr (lit "Quota exceeded")) ]) ].

Definition quota_response : response :=
  {| status_code := 200;
     text := lit "{...}";
     json_body := Some (JDict quota_fields) |}.

(** A candidate that was stopped before any content was generated. *)
Definition blocked_fields : list (str * json) :=
  [ (lit "candidates",
     JList [ JDict [ (lit "finishReason", JStr (lit "SAFETY")) ] ]) ].

Definition blocked_response : response :=
  {| status_code := 200;
     text := lit "{...}";
     json_body := Some (JDict blocked_fields) |}.

(** A candidate whose content names a role and has no parts. *)
Definition role_only_fields : list (str * json) :=
  [ (lit "candidates",
     JList [ JDict [ (lit "content",
                      JDict [ (lit "role", JStr (lit "model")) ]) ] ]) ].

Definition role_only_response : response :=
  {| status_code := 200;
     text := lit "{...}";
     json_body := Some (JDict role_only_fields) |}.

(** An answer with spaces, capitals and a line end, to be returned as
    it is. *)
Definition verbatim_answer : json :=
  JStr (lit "  The Capital is PARIS. " ++ [NEWLINE]).

Definition verbatim_response : response :=
  {| status_code := 200;
     text := lit "{...}";
     json_body := Some (answer_body verbatim_answer) |}.

Section Program.

(** The interpreter: its lowercase table, the text [str()] gives for
    a float, a list or a dict, and the text [str(e)] gives for an
    exception. *)
Variable unicode_lower : str -> nat -> char -> str.
Variable repr_other : json -> str.
Variable str_exception : exception -> str.

(** The console: the characters outside ASCII its encoding has. *)
Variable stdout_encodes : char -> bool.

(** The environment: [os.getenv("GEMINI_API_KEY")], read once, and the
    network, which decides the outcome of the [n]-th request of the
    run. *)
Variable API_KEY : option str.
Variable network : nat -> request -> post_outcome.

(** [f"{v}"]: a string as it is, the rest as [str(v)]. *)
Definition format (v : json) : str :=
  match v with
  | JStr s => s
  | JNull => lit "None"
  | JBool true => lit "True"
  | JBool false => lit "False"
  | JInt n => str_of_int n
  | _ => repr_other v
  end.

Definition format_key (k : option str) : str :=
  match k with
  | Some s => s
  | None => lit "None"
  end.

Definition API_URL : str :=
  lit "https://generativelanguage.googleapis.com/v1beta/models/"
  ++ MODEL_NAME ++ lit ":generateContent?key=" ++ format_key API_KEY.

(** [not API_KEY]: the variable is unset or empty. *)
Definition key_missing : bool :=
  match API_KEY with
  | None | Some [] => true
  | Some _ => false
  end.

(** *** The Normalizer *)

(** The characters [re.sub(r'[^a-z0-9\s]', '', text)] keeps. *)
Definition kept (c : char) : bool :=
  is_ascii_lower c || is_digit c || isspace c.

Definition re_sub_punctuation (text : str) : str := filter kept text.

Definition preprocess_question (question : str) : str :=
  match question with
  | [] => []
  | _ =>
      let text := lower unicode_lower question in
      let text := re_sub_punctuation text in
      let tokens := split text in
      let processed_text := join [SPACE] tokens in
      processed_text
  end.

(** *** The Answer Requester *)

Local Open Scope io_scope.

(** [requests.post]: one request goes out, and the network answers it
    or fails it. *)
Definition requests_post (req : request) : io response :=
  fun t =>
    match network (List.length (posts t)) req with
    | Responds r => (Return r, t ++ [Posted req])
    | Fails e => (Raise e, t ++ [Posted req])
    end.

(** [response.raise_for_status()]: a 4xx or 5xx status raises. *)
Definition raise_for_status (r : response) : result unit :=
  if ((400 <=? status_code r) && (status_code r <? 600))%Z
  then Raise (HTTPError (Some r))
  else Return tt.

(** [response.json()]. *)
Definition response_json (r : response) : result json :=
  match json_body r with
  | Some data => Return data
  | None => Raise JSONDecodeError
  end.

Definition build_payload (full_prompt : str) : json :=
  JDict
    [ (lit "contents",
       JList [ JDict [ (lit "parts",
                        JList [ JDict [ (lit "text", JStr full_prompt) ] ]) ] ]);
      (lit "systemInstruction",
       JDict [ (lit "parts",
                JList [ JDict [ (lit "text", JStr SYSTEM_INSTRUCTION) ] ]) ]) ].

(** The condition
    [data.get('candidates') and data['candidates'][0].get('content')]. *)
Definition has_content (data : json) : result bool :=
  (candidates <- dict_get data (lit "candidates") JNull ;;
   if truthy candidates then
     c <- getitem data (lit "candidates") ;;
     c0 <- getitem0 c ;;
     content <- dict_get c0 (lit "content") JNull ;;
     Return (truthy content)
   else Return false)%result.

(** [data['candidates'][0]['content']['parts'][0]['text']]. *)
Definition first_text (data : json) : result json :=
  (c <- getitem data (lit "candidates") ;;
   c0 <- getitem0 c ;;
   content <- getitem c0 (lit "content") ;;
   parts <- getitem content (lit "parts") ;;
   p0 <- getitem0 parts ;;
   getitem p0 (lit "text"))%result.

(** The [else] branch: the message of the provider, or the fallback. *)
Definition api_error (data : json) : result json :=
  (err <- dict_get data (lit "error") (JDict []) ;;
   error_message <- dict_get err (lit "message") (JStr (lit "Unknown API Error.")) ;;
   Return (JStr (lit "API Error: " ++ format error_message)))%result.

Definition build_request (full_prompt : str) : request :=
  {| url := API_URL;
     headers := [(lit "Content-Type", lit "application/json")];
     payload := build_payload full_prompt;
     timeout := 30 |}.

(** What the program makes of a response: lines 77 to 87. *)
Definition read_response (r : response) : result json :=
  (_ <- raise_for_status r ;;
   data <- response_json r ;;
   generated <- has_content data ;;
   if generated then first_text data else api_error data)%result.

(** The body of the [try]. *)
Definition call_api (full_prompt : str) : io json :=
  response <- requests_post (build_request full_prompt) ;;
  lift (read_response response).

(** The [except] clauses, tried in the order they are written.  The
    first one reads [e.response.status_code]: when [e.response] is
    [None] that raises an [AttributeError], inside the handler, where no
    clause catches it. *)
Definition on_error (e : exception) : io json :=
  match e with
  | HTTPError (Some resp) =>
      ret (JStr (lit "HTTP Error: Could not connect to API. Status code: "
                 ++ str_of_int (status_code resp)
                 ++ lit ". Response: " ++ text resp))
  | HTTPError None =>
      throw (AttributeError JNull (lit "status_code"))
  | _ =>
      if is_ConnectionError e then
        ret (JStr (lit "Connection Error: Failed to connect to the internet or API endpoint."))
      else if is_Timeout e then
        ret (JStr (lit "Timeout Error: The request took too long to complete."))
      else
        ret (JStr (lit "An unexpected error occurred: " ++ str_exception e))
  end.

Definition get_llm_response (full_prompt : str) : io json :=
  if key_missing then
    ret (JStr (lit "ERROR: API Key not found. Please set GEMINI_API_KEY in your .env file."))
  else
    try_except (call_api full_prompt) on_error.

(** *** The console loop *)

(** How one pass through the body of [while True] leaves the loop. *)
Inductive signal : Type := Break | Continue.

Definition rule (c : string) : str := List.concat (repeat (lit c) 60).

Definition build_prompt (processed_question : str) : str :=
  lit "Using the following preprocessed query, provide a concise answer: '"
  ++ processed_question ++ lit "'".

(** Whether the console can encode a text. *)
Definition encodable (line : str) : bool :=
  forallb (fun c => (c <? 128)%N || stdout_encodes c) line.

(** [print(answer)]: the answer comes from outside the program, and
    writing it raises when the console cannot encode it. *)
Definition print_answer (answer : json) : io unit :=
  if encodable (format answer) then print (format answer)
  else throw (UnicodeEncodeError (format answer)).

(** The pipeline of one question: lines 120 to 139. *)
Definition answer_question (raw_question : str) : io signal :=
  emit (Normalized raw_question) ;;
  let processed_question := preprocess_question raw_question in
  print (NEWLINE :: lit "[Processed Query]: " ++ processed_question) ;;
  let full_prompt := build_prompt processed_question in
  print (NEWLINE :: lit "... Thinking ...") ;;
  answer <- get_llm_response full_prompt ;;
  print (NEWLINE :: rule "=") ;;
  print (lit " FINAL ANSWER") ;;
  print (rule "=") ;;
  print_answer answer ;;
  print (rule "-") ;;
  ret Continue.

(** The body of the [try] of the loop, once [input] has returned. *)
Definition handle_line (raw_question : str) : io signal :=
  if existsb (str_eqb (lower unicode_lower raw_question)) [lit "quit"; lit "exit"]
  then print GOODBYE ;; ret Break
  else if match strip raw_question with [] => true | _ => false end
  then ret Continue
  else answer_question raw_question.

Definition on_loop_error (e : exception) : io signal :=
  print (lit "An unexpected error occurred in the main loop: " ++ str_exception e) ;;
  ret Continue.

(** One pass through the body of [while True], given what [input]
    does. *)
Definition main_turn (inp : input_outcome) : io signal :=
  emit (Prompted (NEWLINE :: lit "Ask a question: ")) ;;
  match inp with
  | Interrupted => print GOODBYE ;; ret Break
  | EndOfInput => on_loop_error EOFError
  | Line raw_question => try_except (handle_line raw_question) on_loop_error
  end.

(** How a run over a finite script of inputs ends: the loop was left,
    or the program waits for more input. *)
Inductive ending : Type := Exited | Waiting.

Fixpoint main_loop (inputs : list input_outcome) : io ending :=
  match inputs with
  | [] => ret Waiting
  | inp :: rest =>
      s <- main_turn inp ;;
      match s with
      | Break => ret Exited
      | Continue => main_loop rest
      end
  end.

Definition main (inputs : list input_outcome) : io ending :=
  print (rule "=") ;;
  print (lit " LLM Q&A CLI Application (" ++ MODEL_NAME ++ lit ")") ;;
  print (rule "=") ;;
  print (lit "Enter 'quit' or 'exit' to stop the application.") ;;
  print (rule "-") ;;
  main_loop inputs.

(** *** The shape the specification gives a normalized query *)

(** Only lowercase ASCII letters, digits and spaces; no space at either
    end; no two spaces in a row. *)
Definition normal_form (s : str) : Prop :=
  Forall (fun c => is_ascii_lower c = true \/ is_digit c = true \/ c = SPACE) s
  /\ (forall r, s <> SPACE :: r)
  /\ (forall r, s <> r ++ [SPACE])
  /\ (forall a b, s <> a ++ SPACE :: SPACE :: b).

(** A token of a normalized query: not empty, letters and digits only. *)
Definition is_lower_alnum (c : char) : bool := is_ascii_lower c || is_digit c.

Definition token_ok (t : str) : Prop :=
  t <> [] /\ Forall (fun c => is_lower_alnum c = true) t.

(** The spacing of [normal_form], read left to right; [after_space]
    says that the character before was a space, or that the string
    starts here. *)
Fixpoint spaced_ok (after_space : bool) (s : str) : bool :=
  match s with
  | [] => negb after_space
  | c :: r =>
      if (c =? SPACE)%N then negb after_space && spaced_ok true r
      else spaced_ok false r
  end.


(** [needle in hay], decided: [hay] starts with [needle], or a tail of
    [hay] holds it. *)
Fixpoint starts_with (needle hay : str) : bool :=
  match needle, hay with
  | [], _ => true
  | n :: ns, h :: hs => (n =? h)%N && starts_with ns hs
  | _ :: _, [] => false
  end.

Fixpoint containsb (needle hay : str) : bool :=
  starts_with needle hay
  || match hay with
     | [] => false
     | _ :: rest => containsb needle rest
     end.

(** The credential is configured: the variable is set and not empty. *)
Definition key_present : Prop := exists k, API_KEY = Some k /\ k <> [].

(** The credential is absent: the variable is unset or empty. *)
Definition key_absent : Prop := API_KEY = None \/ API_KEY = Some [].

(** The success shape of the specification,
    [{candidates:[{content:{parts:[{text:<answer>}]}}]}]: the path
    [candidates[0].content.parts[0].text] of [data] exists and holds
    [answer].  Other fields and further list items may be present. *)
Definition success_shape (answer : json) (data : json) : Prop :=
  exists fields candidate others content part more,
    data = JDict fields
    /\ lookup (lit "candidates") fields = Some (JList (JDict candidate :: others))
    /\ lookup (lit "content") candidate = Some (JDict content)
    /\ lookup (lit "parts") content = Some (JList (JDict part :: more))
    /\ lookup (lit "text") part = Some answer.

(** A transport-level success: [raise_for_status] lets the status
    pass. *)
Definition transport_success (r : response) : Prop :=
  (status_code r < 400 \/ 600 <= status_code r)%Z.

(** The value is a Python [str]. *)
Definition is_str (v : json) : Prop := exists s, v = JStr s.

(** *** Further shapes of inputs, bodies and runs *)

(** Every character is below 128. *)
Definition is_ascii_str (s : str) : Prop :=
  Forall (fun c => (c <? 128)%N = true) s.

(** Every character is whitespace; the empty string counts. *)
Definition is_blank (s : str) : Prop :=
  Forall (fun c => isspace c = true) s.

(** The status [raise_for_status] raises on. *)
Definition http_failure (r : response) : Prop :=
  (400 <= status_code r < 600)%Z.

Definition is_HTTPError (e : exception) : bool :=
  match e with HTTPError _ => true | _ => false end.

(** The key is not in the dict, or its value counts as false. *)
Definition missing_or_falsy (o : option json) : Prop :=
  match o with
  | None => True
  | Some v => truthy v = false
  end.

(** A decoded dict that fails the content test of line 82 without an
    error: no usable [candidates], or a first candidate that is a dict
    with no usable [content]. *)
Definition no_generated_content (fields : list (str * json)) : Prop :=
  missing_or_falsy (lookup (lit "candidates") fields)
  \/ exists candidate others,
       lookup (lit "candidates") fields = Some (JList (JDict candidate :: others))
       /\ missing_or_falsy (lookup (lit "content") candidate).

(** The test of line 113. *)
Definition is_sentinel (raw_question : str) : bool :=
  existsb (str_eqb (lower unicode_lower raw_question)) [lit "quit"; lit "exit"].


(** The request a turn sends for a question, if there is a credential. *)
Definition sent_for (raw_question : str) : list event :=
  if key_missing then []
  else [Posted (build_request (build_prompt (preprocess_question raw_question)))].

Definition is_Line (inp : input_outcome) : bool :=
  match inp with Line _ => true | _ => false end.

Definition PROMPT : event := Prompted (NEWLINE :: lit "Ask a question: ").

(** What a turn shows around a question: the processed query and the
    notice before the call; after it the frame and, in it, the answer
    and the closing rule, or the report of the loop when the console
    cannot encode the answer. *)
Definition before_call (raw_question : str) : list event :=
  [ PROMPT;
    Normalized raw_question;
    Printed (NEWLINE :: lit "[Processed Query]: " ++ preprocess_question raw_question);
    Printed (NEWLINE :: lit "... Thinking ...") ].

Definition loop_report (e : exception) : event :=
  Printed (lit "An unexpected error occurred in the main loop: "
           ++ str_exception e).

Definition after_call (answer : json) : list event :=
  [ Printed (NEWLINE :: rule "=");
    Printed (lit " FINAL ANSWER");
    Printed (rule "=") ]
  ++ if encodable (format answer)
     then [ Printed (format answer); Printed (rule "-") ]
     else [ loop_report (UnicodeEncodeError (format answer)) ].

(** How a turn ends after the call: the framed answer when the call
    returned, the report of the loop when it raised. *)
Definition turn_end (outcome : result json) : list event :=
  match outcome with
  | Return answer => after_call answer
  | Raise e => [ loop_report e ]
  end.

(** What the turn at the end of the input adds to the trace. *)
Definition eof_report : list event :=
  [ PROMPT;
    Printed (lit "An unexpected error occurred in the main loop: "
             ++ str_exception EOFError) ].

(* =============================================================== *)
(** ** Properties of the string operations *)

Ltac char_facts :=
  unfold is_lower_alnum, kept, is_ascii_lower, is_ascii_upper, is_digit,
    isspace, SPACE in *;
  repeat match goal with
         | H : _ = true |- _ =>
             rewrite ?orb_true_iff, ?andb_true_iff, ?N.leb_le, ?N.eqb_eq,
               ?N.ltb_lt in H
         end.

Lemma alnum_not_space (c : char) :
  is_lower_alnum c = true -> isspace c = false.
Proof.
  intro H. apply not_true_is_false. intro K. char_facts. lia.
Qed.

Lemma alnum_not_SPACE (c : char) :
  is_lower_alnum c = true -> (c =? SPACE)%N = false.
Proof.
  intro H. apply N.eqb_neq. char_facts. lia.
Qed.

Lemma alnum_kept (c : char) : is_lower_alnum c = true -> kept c = true.
Proof.
  unfold kept, is_lower_alnum. intros ->. reflexivity.
Qed.

Lemma alnum_lower (c : char) :
  is_lower_alnum c = true -> (c <? 128)%N = true /\ ascii_lower c = c.
Proof.
  intro H. split.
  - apply N.ltb_lt. char_facts. lia.
  - unfold ascii_lower. replace (is_ascii_upper c) with false; [reflexivity|].
    symmetry. apply not_true_is_false. intro K. char_facts. lia.
Qed.

Lemma kept_nonspace_alnum (c : char) :
  kept c = true -> isspace c = false -> is_lower_alnum c = true.
Proof.
  unfold kept, is_lower_alnum. intros H K. rewrite K, orb_false_r in H. exact H.
Qed.

Lemma SPACE_is_space : isspace SPACE = true.
Proof. reflexivity. Qed.

Lemma split_cons (c : char) (r : str) :
  split (c :: r) =
  if isspace c then split r
  else match r with
       | [] => [[c]]
       | d :: _ =>
           if isspace d then [c] :: split r
           else match split r with
                | t :: ts => (c :: t) :: ts
                | [] => [[c]]
                end
       end.
Proof. reflexivity. Qed.

(** Every token [split] returns is a non-empty run of characters of
    the string that are not whitespace. *)
Lemma split_tokens (P : char -> Prop) (s : str) :
  Forall P s ->
  Forall (fun t => t <> [] /\ Forall (fun c => P c /\ isspace c = false) t)
         (split s).
Proof.
  induction s as [|c r IH]; intro H; [constructor|].
  inversion H as [|? ? Hc Hr]; subst. specialize (IH Hr).
  rewrite split_cons. destruct (isspace c) eqn:Ec; [exact IH|].
  assert (Hone : (fun t => t <> [] /\ Forall (fun c => P c /\ isspace c = false) t) [c]).
  { split; [discriminate|]. constructor; [split; assumption|constructor]. }
  destruct r as [|d r']; [constructor; [exact Hone|constructor]|].
  destruct (isspace d) eqn:Ed; [constructor; assumption|].
  destruct (split (d :: r')) as [|t ts]; [constructor; [exact Hone|constructor]|].
  inversion IH as [|? ? [Ht Hall] Hts]; subst.
  constructor; [|exact Hts].
  split; [discriminate|]. constructor; [split; assumption|exact Hall].
Qed.

(** A token in front of the end of the string, or of a whitespace
    character, is split off whole. *)
Lemma split_token_app (t rest : str) :
  t <> [] ->
  Forall (fun c => isspace c = false) t ->
  (rest = [] \/ exists d r, rest = d :: r /\ isspace d = true) ->
  split (t ++ rest) = t :: split rest.
Proof.
  intros Hne Hall Hrest. induction t as [|c t' IH]; [contradiction|].
  inversion Hall as [|? ? Hc Ht']; subst.
  destruct t' as [|c' t''].
  - cbn [app]. rewrite split_cons, Hc.
    destruct Hrest as [->|(d & r & -> & Hd)]; [reflexivity|].
    rewrite Hd. reflexivity.
  - assert (IH' := IH ltac:(discriminate) Ht'). clear IH.
    inversion Ht' as [|? ? Hc' _]; subst.
    change ((c :: c' :: t'') ++ rest) with (c :: (c' :: t'') ++ rest).
    rewrite split_cons, Hc.
    change ((c' :: t'') ++ rest) with (c' :: t'' ++ rest) at 1.
    cbv iota. rewrite Hc', IH'. reflexivity.
Qed.

Lemma token_ok_nonspace (t : str) :
  token_ok t -> Forall (fun c => isspace c = false) t.
Proof.
  intros [_ H]. eapply Forall_impl; [|exact H]. apply alnum_not_space.
Qed.

(** Splitting what [join] built gives back the tokens. *)
Lemma split_join (ts : list str) :
  Forall token_ok ts -> split (join [SPACE] ts) = ts.
Proof.
  induction ts as [|t ts IH]; intro H; [reflexivity|].
  inversion H as [|? ? Ht Hts]; subst. specialize (IH Hts).
  destruct ts as [|t' ts'].
  - cbn [join]. rewrite <- (app_nil_r t) at 1.
    rewrite split_token_app; [reflexivity|apply Ht|now apply token_ok_nonspace|now left].
  - change (join [SPACE] (t :: t' :: ts'))
      with (t ++ SPACE :: join [SPACE] (t' :: ts')).
    rewrite split_token_app;
      [|apply Ht|now apply token_ok_nonspace|right; eauto using SPACE_is_space].
    rewrite split_cons, SPACE_is_space, IH. reflexivity.
Qed.

Lemma join_chars (P : char -> Prop) (ts : list str) :
  P SPACE -> Forall (Forall P) ts -> Forall P (join [SPACE] ts).
Proof.
  intros HS. induction ts as [|t ts IH]; intro H; [constructor|].
  inversion H as [|? ? Ht Hts]; subst. specialize (IH Hts).
  destruct ts as [|t' ts']; [exact Ht|].
  change (join [SPACE] (t :: t' :: ts'))
    with (t ++ SPACE :: join [SPACE] (t' :: ts')).
  apply Forall_app. split; [exact Ht|]. constructor; assumption.
Qed.

Lemma spaced_ok_run (t rest : str) :
  Forall (fun c => is_lower_alnum c = true) t ->
  spaced_ok false (t ++ rest) = spaced_ok false rest.
Proof.
  induction 1 as [|c t' Hc _ IH]; [reflexivity|].
  cbn [app spaced_ok]. rewrite alnum_not_SPACE by exact Hc. exact IH.
Qed.

Lemma spaced_ok_token (p : bool) (t rest : str) :
  token_ok t -> spaced_ok p (t ++ rest) = spaced_ok false rest.
Proof.
  intros [Hne Hall]. destruct t as [|c t']; [contradiction|].
  inversion Hall as [|? ? Hc Ht']; subst.
  cbn [app spaced_ok]. rewrite alnum_not_SPACE by exact Hc.
  now apply spaced_ok_run.
Qed.

Lemma join_spaced (ts : list str) :
  ts <> [] -> Forall token_ok ts -> spaced_ok true (join [SPACE] ts) = true.
Proof.
  induction ts as [|t ts IH]; intros Hne H; [contradiction|].
  inversion H as [|? ? Ht Hts]; subst.
  destruct ts as [|t' ts'].
  - cbn [join]. rewrite <- (app_nil_r t), spaced_ok_token by exact Ht. reflexivity.
  - change (join [SPACE] (t :: t' :: ts'))
      with (t ++ SPACE :: join [SPACE] (t' :: ts')).
    rewrite spaced_ok_token by exact Ht.
    cbn [spaced_ok]. rewrite N.eqb_refl. cbn [negb andb].
    apply IH; [discriminate|exact Hts].
Qed.

Lemma spaced_ok_no_lead (s r : str) :
  spaced_ok true s = true -> s <> SPACE :: r.
Proof.
  intros H ->. cbn in H. discriminate.
Qed.

Lemma spaced_ok_no_trail (p : bool) (s r : str) :
  spaced_ok p s = true -> s <> r ++ [SPACE].
Proof.
  intros H ->. revert p H. induction r as [|a r IH]; intros p H.
  - cbn in H. rewrite andb_false_r in H. discriminate.
  - cbn [app spaced_ok] in H. destruct (a =? SPACE)%N.
    + apply andb_prop in H. destruct H as [_ H]. exact (IH _ H).
    + exact (IH _ H).
Qed.

Lemma spaced_ok_no_double (p : bool) (s a b : str) :
  spaced_ok p s = true -> s <> a ++ SPACE :: SPACE :: b.
Proof.
  intros H ->. revert p H. induction a as [|c a IH]; intros p H.
  - cbn in H. rewrite andb_false_r in H. discriminate.
  - cbn [app spaced_ok] in H. destruct (c =? SPACE)%N.
    + apply andb_prop in H. destruct H as [_ H]. exact (IH _ H).
    + exact (IH _ H).
Qed.

(** What [join] builds from good tokens is in normal form. *)
Lemma join_normal_form (ts : list str) :
  Forall token_ok ts -> normal_form (join [SPACE] ts).
Proof.
  intro H. destruct ts as [|t ts'].
  - repeat split; [constructor| | |].
    + discriminate.
    + intros r E. destruct r; discriminate.
    + intros a b E. destruct a; discriminate.
  - assert (Hs := join_spaced (t :: ts') ltac:(discriminate) H).
    repeat split.
    + apply join_chars; [right; right; reflexivity|].
      eapply Forall_impl; [|exact H]. intros t0 [_ Hall].
      eapply Forall_impl; [|exact Hall]. cbv beta. intros c Hc.
      unfold is_lower_alnum in Hc. apply orb_true_iff in Hc. tauto.
    + intro r. now apply spaced_ok_no_lead.
    + intro r. now apply spaced_ok_no_trail with (p := true).
    + intros a b. now apply spaced_ok_no_double with (p := true).
Qed.

Lemma lower_from_ascii (s : str) (i : nat) (rest : str) :
  Forall (fun c => (c <? 128)%N = true) rest ->
  lower_from unicode_lower s i rest = map ascii_lower rest.
Proof.
  intro H. revert i. induction H as [|c r Hc _ IH]; intro i; [reflexivity|].
  cbn [lower_from map]. unfold lower_char. rewrite Hc, IH. reflexivity.
Qed.

Lemma lower_ascii (s : str) :
  Forall (fun c => (c <? 128)%N = true) s ->
  lower unicode_lower s = map ascii_lower s.
Proof. apply lower_from_ascii. Qed.

(** The tokens [preprocess_question] joins are good tokens. *)
Lemma preprocess_tokens (text : str) :
  Forall token_ok (split (re_sub_punctuation text)).
Proof.
  unfold re_sub_punctuation.
  assert (H : Forall (fun c => kept c = true) (filter kept text)).
  { apply Forall_forall. intros c Hc. apply filter_In in Hc. tauto. }
  apply split_tokens in H. eapply Forall_impl; [|exact H].
  intros t [Hne Hall]. split; [exact Hne|].
  eapply Forall_impl; [|exact Hall]. cbv beta. intros c [Hk Hs].
  now apply kept_nonspace_alnum.
Qed.

Lemma preprocess_is_join (question : str) :
  exists ts, Forall token_ok ts /\ preprocess_question question = join [SPACE] ts.
Proof.
  destruct question as [|c r].
  - exists []. split; [constructor|reflexivity].
  - eexists. split; [|reflexivity]. apply preprocess_tokens.
Qed.

(** A query in normal form is left as it is. *)
Lemma preprocess_join (ts : list str) :
  Forall token_ok ts ->
  preprocess_question (join [SPACE] ts) = join [SPACE] ts.
Proof.
  intro H. unfold preprocess_question.
  destruct (join [SPACE] ts) as [|c r] eqn:E; [reflexivity|]. rewrite <- E.
  assert (Hall : Forall (fun c => is_lower_alnum c = true \/ c = SPACE)
                        (join [SPACE] ts)).
  { apply join_chars; [now right|]. eapply Forall_impl; [|exact H].
    intros t [_ Ht]. eapply Forall_impl; [|exact Ht]. cbv beta. tauto. }
  rewrite lower_ascii.
  2:{ eapply Forall_impl; [|exact Hall]. cbv beta.
      intros a [Ha| ->]; [now apply alnum_lower|reflexivity]. }
  replace (map ascii_lower (join [SPACE] ts)) with (join [SPACE] ts).
  2:{ symmetry. rewrite <- (map_id (join [SPACE] ts)) at 2.
      apply map_ext_Forall. eapply Forall_impl; [|exact Hall]. cbv beta.
      intros a [Ha| ->]; [now apply alnum_lower|reflexivity]. }
  unfold re_sub_punctuation.
  replace (filter kept (join [SPACE] ts)) with (join [SPACE] ts).
  2:{ symmetry. apply forallb_filter_id. apply forallb_forall.
      rewrite Forall_forall in Hall. intros a Ha.
      destruct (Hall a Ha) as [K| ->]; [now apply alnum_kept|reflexivity]. }
  now rewrite split_join.
Qed.

(* =============================================================== *)
(** ** The Normalizer: claims C1 and C2 *)

(** C1. For every input string, [preprocess_question] returns a string
    of lowercase ASCII letters, digits and spaces only, with no space
    at the start, none at the end, and never two spaces in a row: the
    tokens are separated by single spaces. *)
Theorem preprocess_question_normal_form (question : str) :
  normal_form (preprocess_question question).
Proof.
  destruct (preprocess_is_join question) as (ts & Hts & ->).
  now apply join_normal_form.
Qed.

(** C2. The Normalizer is idempotent: normalizing a normalized query
    gives the same query. *)
Theorem preprocess_question_idempotent (question : str) :
  preprocess_question (preprocess_question question)
  = preprocess_question question.
Proof.
  destruct (preprocess_is_join question) as (ts & Hts & ->).
  now apply preprocess_join.
Qed.


(* =============================================================== *)
(** ** Properties of the Answer Requester *)

Lemma starts_with_prefix (needle hay : str) :
  starts_with needle hay = true <-> exists after, hay = needle ++ after.
Proof.
  revert hay. induction needle as [|n ns IH]; intro hay.
  - split; [intros _; now exists hay|reflexivity].
  - destruct hay as [|h hs]; cbn [starts_with].
    + split; [discriminate|intros [after E]; discriminate].
    + rewrite andb_true_iff, N.eqb_eq, IH. split.
      * intros [-> [after ->]]. now exists after.
      * intros [after E]. injection E as -> ->. split; [reflexivity|now exists after].
Qed.

Lemma containsb_contains (needle hay : str) :
  containsb needle hay = true <-> contains needle hay.
Proof.
  unfold contains. induction hay as [|h hs IH].
  - cbn [containsb]. rewrite orb_false_r, starts_with_prefix. split.
    + intros [after E]. now exists [], after.
    + intros (before & after & E). symmetry in E.
      apply app_eq_nil in E. destruct E as [-> E]. now exists after.
  - cbn [containsb]. rewrite orb_true_iff, starts_with_prefix, IH. split.
    + intros [[after E]|(before & after & E)].
      * now exists [], after.
      * exists (h :: before), after. now rewrite E.
    + intros (before & after & E). destruct before as [|b before].
      * left. now exists after.
      * right. injection E as -> ->. now exists before, after.
Qed.

Lemma contains_middle (before needle after : str) :
  contains needle (before ++ needle ++ after).
Proof. now exists before, after. Qed.

Lemma key_present_not_missing : key_present -> key_missing = false.
Proof.
  intros (k & E & Hk). unfold key_missing. rewrite E.
  destruct k; [contradiction|reflexivity].
Qed.

Lemma key_absent_missing : key_absent -> key_missing = true.
Proof.
  unfold key_missing. intros [-> | ->]; reflexivity.
Qed.

(** A handler adds nothing to the trace. *)
Lemma on_error_trace (e : exception) (t : trace) :
  exists outcome, on_error e t = (outcome, t).
Proof.
  unfold on_error.
  destruct e as [[r|]| | | | | | | | | | | |];
    cbn [is_ConnectionError is_Timeout]; eexists; reflexivity.
Qed.

(** A handler returns a string, but for an [HTTPError] without
    response. *)
Lemma on_error_returns (e : exception) (t : trace) :
  e <> HTTPError None ->
  exists s, on_error e t = (Return (JStr s), t).
Proof.
  intro H. unfold on_error.
  destruct e as [[r|]| | | | | | | | | | | |];
    cbn [is_ConnectionError is_Timeout]; try (eexists; reflexivity).
  contradiction.
Qed.

(** With a credential, the call is one request followed by the reading
    of the response, or by a handler. *)
Lemma get_llm_response_with_key (full_prompt : str) (t : trace) :
  key_missing = false ->
  get_llm_response full_prompt t =
  let t' := t ++ [Posted (build_request full_prompt)] in
  match network (List.length (posts t)) (build_request full_prompt) with
  | Responds r =>
      match read_response r with
      | Return v => (Return v, t')
      | Raise e => on_error e t'
      end
  | Fails e => on_error e t'
  end.
Proof.
  intro H. unfold get_llm_response, try_except, call_api, bind, requests_post, lift.
  rewrite H.
  destruct (network _ _) as [r|e]; [|reflexivity].
  destruct (read_response r); reflexivity.
Qed.

Lemma lookup_nonempty (key : str) (fields : list (str * json)) (v : json) :
  lookup key fields = Some v -> truthy (JDict fields) = true.
Proof. destruct fields; [discriminate|reflexivity]. Qed.

(** On a body of the success shape the program finds the answer. *)
Lemma read_success_shape (r : response) (data answer : json) :
  transport_success r ->
  json_body r = Some data ->
  success_shape answer data ->
  read_response r = Return answer.
Proof.
  intros Hs Hj (fields & candidate & others & content & part & more
                & -> & Hc & Hcontent & Hparts & Htext).
  unfold read_response, raise_for_status, response_json.
  replace ((400 <=? status_code r) && (status_code r <? 600))%Z with false.
  2:{ symmetry. apply andb_false_iff. unfold transport_success in Hs.
      rewrite Z.leb_gt, Z.ltb_ge. lia. }
  rewrite Hj. cbn [rbind].
  unfold has_content, first_text.
  cbn [dict_get getitem getitem0 rbind]. rewrite Hc. cbn [rbind truthy getitem0 dict_get getitem].
  rewrite Hcontent. cbn [rbind]. rewrite (lookup_nonempty _ _ _ Hparts).
  cbn [getitem]. rewrite Hparts. cbn [rbind getitem0 getitem]. rewrite Htext. reflexivity.
Qed.

(** The errors of the operations on the body are errors of the
    interpreter, and the [HTTPError] of [raise_for_status] has its
    response: reading a response never raises an [HTTPError] without
    one. *)
Lemma dict_get_error (v : json) (key : str) (default : json) (e : exception) :
  dict_get v key default = Raise e -> is_HTTPError e = false.
Proof.
  destruct v; cbn [dict_get]; try (intro H; injection H as <-; reflexivity).
  destruct (lookup key fields); discriminate.
Qed.

Lemma getitem_error (v : json) (key : str) (e : exception) :
  getitem v key = Raise e -> is_HTTPError e = false.
Proof.
  destruct v; cbn [getitem]; try (intro H; injection H as <-; reflexivity).
  destruct (lookup key fields); [discriminate|].
  intro H. injection H as <-. reflexivity.
Qed.

Lemma getitem0_error (v : json) (e : exception) :
  getitem0 v = Raise e -> is_HTTPError e = false.
Proof.
  destruct v as [| | | |[|c s]|[|x items]|fields]; cbn [getitem0];
    try discriminate; intro H; injection H as <-; reflexivity.
Qed.

Ltac raise_step H :=
  match type of H with
  | rbind ?r _ = Raise _ =>
      let E := fresh "E" in
      destruct r eqn:E; cbn [rbind] in H;
      [|injection H as <-;
        eauto using dict_get_error, getitem_error, getitem0_error]
  end.

Lemma has_content_error (data : json) (e : exception) :
  has_content data = Raise e -> is_HTTPError e = false.
Proof.
  unfold has_content. intro H. raise_step H.
  match type of H with
  | context [truthy ?x] => destruct (truthy x); [|discriminate]
  end.
  repeat raise_step H. discriminate.
Qed.

Lemma first_text_error (data : json) (e : exception) :
  first_text data = Raise e -> is_HTTPError e = false.
Proof.
  unfold first_text. intro H. repeat raise_step H. now apply getitem_error in H.
Qed.

Lemma api_error_error (data : json) (e : exception) :
  api_error data = Raise e -> is_HTTPError e = false.
Proof.
  unfold api_error. intro H. repeat raise_step H. discriminate.
Qed.

Lemma read_response_error (r : response) (e : exception) :
  read_response r = Raise e -> e <> HTTPError None.
Proof.
  intros R ->. unfold read_response, raise_for_status in R.
  destruct ((400 <=? status_code r) && (status_code r <? 600))%Z;
    [discriminate|]. cbn [rbind] in R.
  unfold response_json in R. destruct (json_body r) as [data|]; [|discriminate].
  cbn [rbind] in R.
  destruct (has_content data) as [[|]|e'] eqn:C; cbn [rbind] in R.
  - apply first_text_error in R. discriminate.
  - apply api_error_error in R. discriminate.
  - apply has_content_error in C. injection R as R. subst e'. discriminate.
Qed.

(** Unless the request fails with an [HTTPError] that has no response,
    the call returns, and what it returns is a string or the text part
    of a body that passed the content test. *)
Lemma get_llm_response_returns (full_prompt : str) (t : trace) :
  network (List.length (posts t)) (build_request full_prompt)
  <> Fails (HTTPError None) ->
  exists v t',
    get_llm_response full_prompt t = (Return v, t')
    /\ (is_str v
        \/ exists r data,
             network (List.length (posts t)) (build_request full_prompt) = Responds r
             /\ json_body r = Some data
             /\ has_content data = Return true
             /\ first_text data = Return v).
Proof.
  intro Hnet. destruct key_missing eqn:K.
  - unfold get_llm_response. rewrite K. do 2 eexists. split; [reflexivity|].
    left. eexists. reflexivity.
  - rewrite get_llm_response_with_key by exact K. cbv zeta.
    destruct (network _ _) as [r|e] eqn:N.
    2:{ destruct (on_error_returns e (t ++ [Posted (build_request full_prompt)]))
          as [s ->]; [congruence|].
        do 2 eexists. split; [reflexivity|]. left. now exists s. }
    destruct (read_response r) as [v|e] eqn:R.
    2:{ assert (He : e <> HTTPError None)
          by (intros ->; now apply read_response_error in R).
        destruct (on_error_returns e (t ++ [Posted (build_request full_prompt)]) He)
          as [s ->].
        do 2 eexists. split; [reflexivity|]. left. now exists s. }
    do 2 eexists. split; [reflexivity|].
    unfold read_response in R.
    destruct (raise_for_status r); [|discriminate]. cbn [rbind] in R.
    unfold response_json in R. destruct (json_body r) as [data|] eqn:J; [|discriminate].
    cbn [rbind] in R. destruct (has_content data) as [[|]|] eqn:C; cbn [rbind] in R.
    + right. exists r, data. auto.
    + left. unfold api_error in R.
      destruct (dict_get data _ _); [|discriminate]. cbn [rbind] in R.
      destruct (dict_get _ _ _); [|discriminate]. cbn [rbind] in R.
      injection R as <-. eexists. reflexivity.
    + discriminate.
Qed.

(* =============================================================== *)
(** ** The Answer Requester: claims C3 to C8 *)

(** C3. When the credential is absent, [get_llm_response] returns, for
    every prompt, a string that contains "API Key not found", and the
    trace is left as it was: no request is sent. *)
Theorem get_llm_response_without_key (full_prompt : str) (t : trace) :
  key_absent ->
  exists answer,
    get_llm_response full_prompt t = (Return (JStr answer), t)
    /\ contains (lit "API Key not found") answer.
Proof.
  intro H. apply key_absent_missing in H.
  unfold get_llm_response. rewrite H.
  eexists. split; [reflexivity|].
  apply (contains_middle (lit "ERROR: ") (lit "API Key not found")
           (lit ". Please set GEMINI_API_KEY in your .env file.")).
Qed.

(** C4. With a credential, when the request is answered by a
    transport-level success whose body has the success shape with
    answer text "Paris", [get_llm_response] returns exactly "Paris". *)
Theorem get_llm_response_paris
    (full_prompt : str) (t : trace) (r : response) (data : json) :
  key_present ->
  network (List.length (posts t)) (build_request full_prompt) = Responds r ->
  transport_success r ->
  json_body r = Some data ->
  success_shape (JStr (lit "Paris")) data ->
  get_llm_response full_prompt t
  = (Return (JStr (lit "Paris")), t ++ [Posted (build_request full_prompt)]).
Proof.
  intros K N Hs Hj Hshape.
  rewrite get_llm_response_with_key by now apply key_present_not_missing.
  cbv zeta. rewrite N. now rewrite (read_success_shape _ _ _ Hs Hj Hshape).
Qed.

(** C5. With a credential, when the request is answered with status
    500, [get_llm_response] returns a string that contains "HTTP Error"
    and "500": the status follows "Status code: ", before the body. *)
Theorem get_llm_response_http_500
    (full_prompt : str) (t : trace) (r : response) :
  key_present ->
  network (List.length (posts t)) (build_request full_prompt) = Responds r ->
  status_code r = 500%Z ->
  exists answer,
    get_llm_response full_prompt t
    = (Return (JStr answer), t ++ [Posted (build_request full_prompt)])
    /\ answer = lit "HTTP Error: Could not connect to API. Status code: 500. Response: "
                ++ text r
    /\ contains (lit "HTTP Error") answer
    /\ contains (lit "500") answer.
Proof.
  intros K N Hs.
  rewrite get_llm_response_with_key by now apply key_present_not_missing.
  cbv zeta. rewrite N.
  unfold read_response, raise_for_status. rewrite Hs. cbn [rbind Z.leb Z.ltb Z.compare Pos.compare Pos.compare_cont andb].
  unfold on_error, ret. rewrite Hs.
  eexists. split; [reflexivity|]. split; [reflexivity|]. split.
  - apply (contains_middle [] (lit "HTTP Error")).
  - apply (contains_middle
             (lit "HTTP Error: Could not connect to API. Status code: ")
             (lit "500") (lit ". Response: " ++ text r)).
Qed.

(** C6, as amended. With a credential, when the request fails with a
    timeout that is not also a connection error (a read timeout, or a
    plain [Timeout]), [get_llm_response] returns the "Timeout Error"
    message. *)
Theorem get_llm_response_timeout
    (full_prompt : str) (t : trace) (e : exception) :
  key_present ->
  network (List.length (posts t)) (build_request full_prompt) = Fails e ->
  is_Timeout e = true ->
  is_ConnectionError e = false ->
  exists answer,
    get_llm_response full_prompt t
    = (Return (JStr answer), t ++ [Posted (build_request full_prompt)])
    /\ answer = lit "Timeout Error: The request took too long to complete."
    /\ contains (lit "Timeout Error") answer.
Proof.
  intros K N HT HC.
  rewrite get_llm_response_with_key by now apply key_present_not_missing.
  cbv zeta. rewrite N. unfold on_error.
  destruct e; try discriminate; cbn [is_ConnectionError is_Timeout];
    (eexists; split; [reflexivity|]; split; [reflexivity|];
     apply (contains_middle [] (lit "Timeout Error"))).
Qed.

(** C8. With a credential, every call of [get_llm_response] sends
    exactly one request, whatever the network does with it: the trace
    grows by that one request and by nothing else. *)
Theorem get_llm_response_one_post (full_prompt : str) (t : trace) :
  key_present ->
  exists outcome,
    get_llm_response full_prompt t
    = (outcome, t ++ [Posted (build_request full_prompt)])
    /\ posts (t ++ [Posted (build_request full_prompt)])
       = posts t ++ [Posted (build_request full_prompt)]
    /\ List.length (posts (snd (get_llm_response full_prompt t)))
       = S (List.length (posts t)).
Proof.
  intro K.
  assert (P : posts (t ++ [Posted (build_request full_prompt)])
              = posts t ++ [Posted (build_request full_prompt)]).
  { unfold posts. now rewrite filter_app. }
  assert (E : exists outcome, get_llm_response full_prompt t
              = (outcome, t ++ [Posted (build_request full_prompt)])).
  { rewrite get_llm_response_with_key by now apply key_present_not_missing.
    cbv zeta. destruct (network _ _) as [r|e].
    - destruct (read_response r) as [v|e]; [now eexists|].
      destruct (on_error_trace e (t ++ [Posted (build_request full_prompt)]))
        as [o ->]. now eexists.
    - destruct (on_error_trace e (t ++ [Posted (build_request full_prompt)]))
        as [o ->]. now eexists. }
  destruct E as [outcome E]. exists outcome. split; [exact E|]. split; [exact P|].
  rewrite E. cbn [snd]. rewrite P, length_app. cbn. lia.
Qed.

(* =============================================================== *)
(** ** Properties of the console loop *)

Lemma space_plain (c : char) :
  isspace c = true -> lower_char unicode_lower [] 0 c = [c] /\ kept c = true.
Proof.
  intro H. split.
  - unfold lower_char, ascii_lower. rewrite H.
    destruct (c <? 128)%N; [|reflexivity].
    replace (is_ascii_upper c) with false; [reflexivity|].
    symmetry. apply not_true_is_false. intro K. char_facts. lia.
  - unfold kept. rewrite H. apply orb_true_r.
Qed.

Lemma lower_char_space (s : str) (i : nat) (c : char) :
  isspace c = true -> lower_char unicode_lower s i c = [c].
Proof.
  intro H. destruct (space_plain c H) as [E _].
  unfold lower_char in *. rewrite H in *. destruct (c <? 128)%N; exact E.
Qed.


Lemma lower_from_spaces (s : str) (i : nat) (ws : str) :
  Forall (fun c => isspace c = true) ws ->
  lower_from unicode_lower s i ws = ws.
Proof.
  intro H. revert i. induction H as [|c r Hc _ IH]; intro i; [reflexivity|].
  cbn [lower_from]. now rewrite lower_char_space, IH.
Qed.




Lemma str_eqb_refl (s : str) : str_eqb s s = true.
Proof. unfold str_eqb. destruct (list_eq_dec N.eq_dec s s); congruence. Qed.


Lemma lstrip_spaces (ws s : str) :
  Forall (fun c => isspace c = true) ws -> lstrip (ws ++ s) = lstrip s.
Proof.
  induction 1 as [|c r Hc _ IH]; [reflexivity|].
  cbn [app lstrip]. now rewrite Hc.
Qed.



Lemma split_spaces (ws s : str) :
  Forall (fun c => isspace c = true) ws -> split (ws ++ s) = split s.
Proof.
  induction 1 as [|c r Hc _ IH]; [reflexivity|].
  cbn [app]. now rewrite split_cons, Hc.
Qed.

Lemma filter_kept_spaces (ws : str) :
  Forall (fun c => isspace c = true) ws -> filter kept ws = ws.
Proof.
  intro H. apply forallb_filter_id. apply forallb_forall.
  rewrite Forall_forall in H. intros c Hc. now apply space_plain, H.
Qed.




(** The pipeline of lines 120 to 139 under the handler of line 144:
    whatever the call and the console do, the turn goes on with the
    loop, and it ends by the framed answer or by the report of the
    loop. *)
Lemma answer_question_run
    (raw_question : str) (t0 : trace) (outcome : result json) (t2 : trace) :
  get_llm_response (build_prompt (preprocess_question raw_question))
    (t0 ++ [ Normalized raw_question;
             Printed (NEWLINE :: lit "[Processed Query]: "
                      ++ preprocess_question raw_question);
             Printed (NEWLINE :: lit "... Thinking ...") ])
  = (outcome, t2) ->
  try_except (answer_question raw_question) on_loop_error t0
  = (Return Continue, t2 ++ turn_end outcome).
Proof.
  intro E. unfold try_except, answer_question, bind, emit, print, emit.
  replace (((t0 ++ [Normalized raw_question])
              ++ [Printed (NEWLINE :: lit "[Processed Query]: "
                           ++ preprocess_question raw_question)])
             ++ [Printed (NEWLINE :: lit "... Thinking ...")])
    with (t0 ++ [ Normalized raw_question;
                  Printed (NEWLINE :: lit "[Processed Query]: "
                           ++ preprocess_question raw_question);
                  Printed (NEWLINE :: lit "... Thinking ...") ])
    by now rewrite <- !app_assoc.
  rewrite E. destruct outcome as [answer|e].
  - unfold print_answer, turn_end, after_call.
    destruct (encodable (format answer)).
    + unfold print, emit, ret. now rewrite <- !app_assoc.
    + unfold throw, on_loop_error, bind, print, emit, ret, loop_report.
      now rewrite <- !app_assoc.
  - unfold on_loop_error, bind, print, emit, ret, turn_end, loop_report.
    reflexivity.
Qed.

(* =============================================================== *)
(** ** The console loop: claims C9 and C10 *)



(* =============================================================== *)
(** ** More on the Normalizer *)

(** In a string of letters, digits and spaces, whitespace is the space
    character. *)
Lemma plain_isspace (c : char) :
  is_lower_alnum c = true \/ c = SPACE ->
  isspace c = (c =? SPACE)%N.
Proof.
  intros [H | ->]; [|reflexivity].
  now rewrite alnum_not_space, alnum_not_SPACE.
Qed.

Lemma join_cons_char (c : char) (t : str) (ts : list str) :
  join [SPACE] ((c :: t) :: ts) = c :: join [SPACE] (t :: ts).
Proof. destruct ts; reflexivity. Qed.

(** The spacing test, from the three conditions of [normal_form]. *)
Lemma spacing_conditions (s : str) (p : bool) :
  (forall r, s <> r ++ [SPACE]) ->
  (forall a b, s <> a ++ SPACE :: SPACE :: b) ->
  (p = true -> forall r, s <> SPACE :: r) ->
  (s <> [] \/ p = false) ->
  spaced_ok p s = true.
Proof.
  revert p. induction s as [|c r IH]; intros p Htrail Hdouble Hlead Hne.
  - destruct Hne as [Hne | ->]; [contradiction|reflexivity].
  - cbn [spaced_ok]. destruct (c =? SPACE)%N eqn:E.
    + apply N.eqb_eq in E. subst c.
      destruct p; [exfalso; now apply (Hlead eq_refl r)|].
      cbn [negb andb]. apply IH.
      * intros x ->. now apply (Htrail (SPACE :: x)).
      * intros a b ->. now apply (Hdouble (SPACE :: a) b).
      * intros _ x ->. now apply (Hdouble [] x).
      * left. intros ->. now apply (Htrail []).
    + apply IH.
      * intros x ->. now apply (Htrail (c :: x)).
      * intros a b ->. now apply (Hdouble (c :: a) b).
      * discriminate.
      * now right.
Qed.

(** Joining the tokens of a well spaced string rebuilds it, up to the
    one space the test allows in front when [p] is false. *)
Lemma join_split_spaced (s : str) (p : bool) :
  Forall (fun c => is_lower_alnum c = true \/ c = SPACE) s ->
  spaced_ok p s = true ->
  join [SPACE] (split s)
  = match s with
    | c :: r => if (c =? SPACE)%N then r else s
    | [] => []
    end.
Proof.
  revert p. induction s as [|c r IH]; intros p Hall Hs; [reflexivity|].
  inversion Hall as [|? ? Hc Hr]; subst.
  rewrite split_cons, (plain_isspace c Hc).
  cbn [spaced_ok] in Hs. destruct (c =? SPACE)%N eqn:E.
  - apply andb_prop in Hs. destruct Hs as [_ Hs].
    rewrite (IH true Hr Hs). destruct r as [|d r']; [reflexivity|].
    cbn [spaced_ok] in Hs. destruct (d =? SPACE)%N; [discriminate|reflexivity].
  - specialize (IH false Hr Hs). destruct r as [|d r']; [reflexivity|].
    inversion Hr as [|? ? Hd _]; subst. rewrite (plain_isspace d Hd).
    destruct (d =? SPACE)%N eqn:D.
    + apply N.eqb_eq in D. subst d.
      cbn [spaced_ok] in Hs. rewrite N.eqb_refl in Hs. cbn [negb andb] in Hs.
      destruct r' as [|x r'']; [discriminate|].
      destruct (split (SPACE :: x :: r'')) as [|t ts]; [discriminate|].
      change (join [SPACE] ([c] :: t :: ts))
        with (c :: SPACE :: join [SPACE] (t :: ts)).
      now rewrite IH.
    + destruct (split (d :: r')) as [|t ts]; [discriminate|].
      now rewrite join_cons_char, IH.
Qed.

(** A string in normal form is the join of its tokens. *)
Lemma normal_form_is_join (s : str) :
  normal_form s ->
  exists ts, Forall token_ok ts /\ s = join [SPACE] ts.
Proof.
  intros (Hall & Hlead & Htrail & Hdouble).
  assert (Hall' : Forall (fun c => is_lower_alnum c = true \/ c = SPACE) s).
  { eapply Forall_impl; [|exact Hall]. cbv beta. unfold is_lower_alnum.
    intros c [H|[H| ->]]; [left; now rewrite H|left; rewrite H; apply orb_true_r|now right]. }
  destruct s as [|c r]; [exists []; split; [constructor|reflexivity]|].
  assert (Hs : spaced_ok true (c :: r) = true).
  { apply spacing_conditions; auto. left. discriminate. }
  exists (split (c :: r)). split.
  - assert (Hk : Forall (fun a => kept a = true) (c :: r)).
    { eapply Forall_impl; [|exact Hall']. cbv beta.
      intros a [H| ->]; [now apply alnum_kept|reflexivity]. }
    apply split_tokens in Hk. eapply Forall_impl; [|exact Hk].
    intros t [Hne Ht]. split; [exact Hne|].
    eapply Forall_impl; [|exact Ht]. cbv beta. intros a [Ha Hsp].
    now apply kept_nonspace_alnum.
  - rewrite (join_split_spaced (c :: r) true Hall' Hs).
    cbn [spaced_ok] in Hs. destruct (c =? SPACE)%N; [discriminate|reflexivity].
Qed.

(** X1. A question made of whitespace only, of any kind and length, the
    empty one included, normalizes to the empty string. *)
Theorem preprocess_question_blank (question : str) :
  is_blank question -> preprocess_question question = [].
Proof.
  intro H. unfold preprocess_question. destruct question as [|c r]; [reflexivity|].
  unfold lower. rewrite (lower_from_spaces _ _ _ H).
  unfold re_sub_punctuation. rewrite (filter_kept_spaces _ H).
  rewrite <- (app_nil_r (c :: r)), (split_spaces _ [] H). reflexivity.
Qed.

(** X2. The queries the Normalizer leaves unchanged are exactly the
    strings in normal form: lowercase letters, digits and single spaces
    between tokens, with no space at either end. *)
Theorem preprocess_question_fixed_points (question : str) :
  preprocess_question question = question <-> normal_form question.
Proof.
  split.
  - intro E. destruct (preprocess_is_join question) as (ts & Hts & J).
    rewrite E in J. rewrite J. now apply join_normal_form.
  - intro H. destruct (normal_form_is_join question H) as (ts & Hts & ->).
    now apply preprocess_join.
Qed.

(** X3. On ASCII text the Normalizer ignores letter case: two ASCII
    questions that differ only in the case of their letters normalize
    to the same query. *)
Theorem preprocess_question_ignores_case (q1 q2 : str) :
  is_ascii_str q1 ->
  is_ascii_str q2 ->
  map ascii_lower q1 = map ascii_lower q2 ->
  preprocess_question q1 = preprocess_question q2.
Proof.
  intros H1 H2 E. unfold preprocess_question.
  rewrite (lower_ascii q1 H1), (lower_ascii q2 H2), E.
  destruct q1, q2; try reflexivity; discriminate.
Qed.

(* =============================================================== *)
(** ** More on the Answer Requester *)

(** After a transport-level success the body decides. *)
Lemma read_response_success (r : response) (data : json) :
  transport_success r ->
  json_body r = Some data ->
  read_response r
  = (generated <- has_content data ;;
     if generated then first_text data else api_error data)%result.
Proof.
  intros Hs Hj. unfold read_response, raise_for_status, response_json.
  replace ((400 <=? status_code r) && (status_code r <? 600))%Z with false.
  2:{ symmetry. apply andb_false_iff. unfold transport_success in Hs.
      rewrite Z.leb_gt, Z.ltb_ge. lia. }
  now rewrite Hj.
Qed.

Lemma has_content_false (fields : list (str * json)) :
  no_generated_content fields -> has_content (JDict fields) = Return false.
Proof.
  unfold has_content. cbn [dict_get getitem].
  intros [H | (candidate & others & Hc & H)].
  - destruct (lookup (lit "candidates") fields) as [v|]; cbn in H |- *;
      [now rewrite H|reflexivity].
  - rewrite Hc. cbn [rbind truthy getitem0 dict_get].
    destruct (lookup (lit "content") candidate) as [v|]; cbn in H |- *;
      [now rewrite H|reflexivity].
Qed.

(** What the call returns and what it adds to the trace, with a
    credential, from what the network and the reading give. *)
Lemma get_llm_response_reads
    (full_prompt : str) (t : trace) (r : response) (v : json) :
  key_present ->
  network (List.length (posts t)) (build_request full_prompt) = Responds r ->
  read_response r = Return v ->
  get_llm_response full_prompt t
  = (Return v, t ++ [Posted (build_request full_prompt)]).
Proof.
  intros K N R.
  rewrite get_llm_response_with_key by now apply key_present_not_missing.
  cbv zeta. now rewrite N, R.
Qed.

Lemma get_llm_response_handles
    (full_prompt : str) (t : trace) (r : response) (e : exception) :
  key_present ->
  network (List.length (posts t)) (build_request full_prompt) = Responds r ->
  read_response r = Raise e ->
  get_llm_response full_prompt t
  = on_error e (t ++ [Posted (build_request full_prompt)]).
Proof.
  intros K N R.
  rewrite get_llm_response_with_key by now apply key_present_not_missing.
  cbv zeta. now rewrite N, R.
Qed.

(** The last handler takes what the first three leave. *)
Lemma on_error_unexpected (e : exception) (t : trace) :
  is_HTTPError e = false ->
  is_ConnectionError e = false ->
  is_Timeout e = false ->
  on_error e t
  = (Return (JStr (lit "An unexpected error occurred: " ++ str_exception e)), t).
Proof.
  intros H1 H2 H3. unfold on_error.
  destruct e; try discriminate; cbn [is_ConnectionError is_Timeout] in *;
    reflexivity.
Qed.

(** Whatever the call gives, the trace grows by the one request when
    there is a credential and by nothing when there is none. *)
Lemma get_llm_response_trace (full_prompt : str) (t : trace) :
  exists outcome,
    get_llm_response full_prompt t
    = (outcome,
       t ++ if key_missing then [] else [Posted (build_request full_prompt)]).
Proof.
  destruct key_missing eqn:K.
  - unfold get_llm_response. rewrite K, app_nil_r. eexists. reflexivity.
  - rewrite get_llm_response_with_key by exact K. cbv zeta.
    destruct (network _ _) as [r|e].
    + destruct (read_response r) as [v|e]; [now eexists|].
      destruct (on_error_trace e (t ++ [Posted (build_request full_prompt)]))
        as [x ->]. now eexists.
    + destruct (on_error_trace e (t ++ [Posted (build_request full_prompt)]))
        as [x ->]. now eexists.
Qed.

(** X4. With a credential, every response with a status from 400 to 599
    is reported as an HTTP error that gives the status in decimal and
    the raw body text, whatever the body is: a 4xx or 5xx response is
    never read as an answer, even when its body has the success
    shape. *)
Theorem get_llm_response_http_failure
    (full_prompt : str) (t : trace) (r : response) :
  key_present ->
  network (List.length (posts t)) (build_request full_prompt) = Responds r ->
  http_failure r ->
  get_llm_response full_prompt t
  = (Return (JStr (lit "HTTP Error: Could not connect to API. Status code: "
                   ++ str_of_int (status_code r)
                   ++ lit ". Response: " ++ text r)),
     t ++ [Posted (build_request full_prompt)]).
Proof.
  intros K N Hs.
  rewrite (get_llm_response_handles full_prompt t r (HTTPError (Some r)) K N); [reflexivity|].
  unfold read_response, raise_for_status.
  replace ((400 <=? status_code r) && (status_code r <? 600))%Z with true;
    [reflexivity|].
  symmetry. apply andb_true_iff. unfold http_failure in Hs.
  rewrite Z.leb_le, Z.ltb_lt. lia.
Qed.

(** X5. With a credential, a request that fails with a connection error
    of any kind, a connect timeout included, is reported by the fixed
    "Connection Error" message. *)
Theorem get_llm_response_connection_error
    (full_prompt : str) (t : trace) (e : exception) :
  key_present ->
  network (List.length (posts t)) (build_request full_prompt) = Fails e ->
  is_ConnectionError e = true ->
  get_llm_response full_prompt t
  = (Return (JStr (lit "Connection Error: Failed to connect to the internet or API endpoint.")),
     t ++ [Posted (build_request full_prompt)]).
Proof.
  intros K N H.
  rewrite get_llm_response_with_key by now apply key_present_not_missing.
  cbv zeta. rewrite N. unfold on_error.
  destruct e; try discriminate; reflexivity.
Qed.

(** X6. With a credential, a request that fails with an exception that
    is neither an HTTP error, nor a connection error, nor a timeout is
    reported as "An unexpected error occurred: " followed by the text of
    the exception. *)
Theorem get_llm_response_unexpected_failure
    (full_prompt : str) (t : trace) (e : exception) :
  key_present ->
  network (List.length (posts t)) (build_request full_prompt) = Fails e ->
  is_HTTPError e = false ->
  is_ConnectionError e = false ->
  is_Timeout e = false ->
  get_llm_response full_prompt t
  = (Return (JStr (lit "An unexpected error occurred: " ++ str_exception e)),
     t ++ [Posted (build_request full_prompt)]).
Proof.
  intros K N H1 H2 H3.
  rewrite get_llm_response_with_key by now apply key_present_not_missing.
  cbv zeta. rewrite N. now apply on_error_unexpected.
Qed.

(** X7. With a credential, a successful response whose body is not
    JSON is reported as an unexpected error with the text of the
    decoding error: the failure of [response.json()] is caught. *)
Theorem get_llm_response_not_json
    (full_prompt : str) (t : trace) (r : response) :
  key_present ->
  network (List.length (posts t)) (build_request full_prompt) = Responds r ->
  transport_success r ->
  json_body r = None ->
  get_llm_response full_prompt t
  = (Return (JStr (lit "An unexpected error occurred: "
                   ++ str_exception JSONDecodeError)),
     t ++ [Posted (build_request full_prompt)]).
Proof.
  intros K N Hs Hj.
  rewrite (get_llm_response_handles full_prompt t r JSONDecodeError K N).
  - now apply on_error_unexpected.
  - unfold read_response, raise_for_status, response_json.
    replace ((400 <=? status_code r) && (status_code r <? 600))%Z with false.
    2:{ symmetry. apply andb_false_iff. unfold transport_success in Hs.
        rewrite Z.leb_gt, Z.ltb_ge. lia. }
    now rewrite Hj.
Qed.

(** X8. With a credential, a successful response whose body has the
    success shape is answered by the value at the text path, returned as
    it is: nothing is trimmed, normalized or added. *)
Theorem get_llm_response_answer_unchanged
    (full_prompt : str) (t : trace) (r : response) (data answer : json) :
  key_present ->
  network (List.length (posts t)) (build_request full_prompt) = Responds r ->
  transport_success r ->
  json_body r = Some data ->
  success_shape answer data ->
  get_llm_response full_prompt t
  = (Return answer, t ++ [Posted (build_request full_prompt)]).
Proof.
  intros K N Hs Hj Hshape.
  apply (get_llm_response_reads full_prompt t r answer K N).
  now apply (read_success_shape r data answer).
Qed.

(** X9. With a credential, a successful response whose body is a dict
    without generated content (no candidates, an empty list of them, or
    a first candidate without content) and with an [error] dict whose
    [message] is a string is answered by "API Error: " followed by that
    message. *)
Theorem get_llm_response_api_error
    (full_prompt : str) (t : trace) (r : response)
    (fields error_fields : list (str * json)) (message : str) :
  key_present ->
  network (List.length (posts t)) (build_request full_prompt) = Responds r ->
  transport_success r ->
  json_body r = Some (JDict fields) ->
  no_generated_content fields ->
  lookup (lit "error") fields = Some (JDict error_fields) ->
  lookup (lit "message") error_fields = Some (JStr message) ->
  get_llm_response full_prompt t
  = (Return (JStr (lit "API Error: " ++ message)),
     t ++ [Posted (build_request full_prompt)]).
Proof.
  intros K N Hs Hj Hno He Hm.
  apply (get_llm_response_reads full_prompt t r _ K N).
  rewrite (read_response_success r (JDict fields) Hs Hj).
  rewrite (has_content_false fields Hno). cbn [rbind].
  unfold api_error. cbn [dict_get]. rewrite He. cbn [rbind dict_get].
  now rewrite Hm.
Qed.

(** X10. With a credential, a successful response whose body is a dict
    without generated content and without an error message (no [error]
    key, or an [error] dict with no [message]) is answered by
    "API Error: Unknown API Error.". *)
Theorem get_llm_response_unknown_api_error
    (full_prompt : str) (t : trace) (r : response) (fields : list (str * json)) :
  key_present ->
  network (List.length (posts t)) (build_request full_prompt) = Responds r ->
  transport_success r ->
  json_body r = Some (JDict fields) ->
  no_generated_content fields ->
  (lookup (lit "error") fields = None
   \/ exists error_fields,
        lookup (lit "error") fields = Some (JDict error_fields)
        /\ lookup (lit "message") error_fields = None) ->
  get_llm_response full_prompt t
  = (Return (JStr (lit "API Error: Unknown API Error.")),
     t ++ [Posted (build_request full_prompt)]).
Proof.
  intros K N Hs Hj Hno He.
  apply (get_llm_response_reads full_prompt t r _ K N).
  rewrite (read_response_success r (JDict fields) Hs Hj).
  rewrite (has_content_false fields Hno). cbn [rbind].
  unfold api_error. cbn [dict_get].
  destruct He as [He | (error_fields & He & Hm)]; rewrite He; cbn [rbind dict_get lookup].
  - reflexivity.
  - now rewrite Hm.
Qed.

(** X11. With a credential, a successful response whose first candidate
    has a content dict that is not empty but has no [parts], or an empty
    list of them, gives neither an answer nor an API error: the failed
    subscript is caught and reported as an unexpected error, a
    [KeyError] for the missing key and an [IndexError] for the empty
    list. *)
Theorem get_llm_response_content_without_parts
    (full_prompt : str) (t : trace) (r : response)
    (fields candidate content : list (str * json)) (others : list json) :
  key_present ->
  network (List.length (posts t)) (build_request full_prompt) = Responds r ->
  transport_success r ->
  json_body r = Some (JDict fields) ->
  lookup (lit "candidates") fields = Some (JList (JDict candidate :: others)) ->
  lookup (lit "content") candidate = Some (JDict content) ->
  content <> [] ->
  (lookup (lit "parts") content = None
   \/ lookup (lit "parts") content = Some (JList [])) ->
  exists e,
    get_llm_response full_prompt t
    = (Return (JStr (lit "An unexpected error occurred: " ++ str_exception e)),
       t ++ [Posted (build_request full_prompt)])
    /\ (lookup (lit "parts") content = None -> e = KeyError (JStr (lit "parts")))
    /\ (lookup (lit "parts") content = Some (JList []) -> e = IndexError (JList [])).
Proof.
  intros K N Hs Hj Hc Hcontent Hne Hparts.
  assert (R : read_response r
              = (parts <- getitem (JDict content) (lit "parts") ;;
                 p0 <- getitem0 parts ;;
                 getitem p0 (lit "text"))%result).
  { rewrite (read_response_success r (JDict fields) Hs Hj).
    unfold has_content, first_text. cbn [dict_get getitem]. rewrite Hc.
    cbn [rbind truthy getitem0 dict_get getitem]. rewrite Hcontent.
    cbn [rbind]. destruct content; [contradiction|reflexivity]. }
  cbn [getitem] in R.
  destruct Hparts as [Hp | Hp]; rewrite Hp in R; cbn [rbind getitem0] in R.
  - exists (KeyError (JStr (lit "parts"))).
    rewrite (get_llm_response_handles full_prompt t r _ K N R).
    split; [now apply on_error_unexpected|]. split; [reflexivity|congruence].
  - exists (IndexError (JList [])).
    rewrite (get_llm_response_handles full_prompt t r _ K N R).
    split; [now apply on_error_unexpected|]. split; [congruence|reflexivity].
Qed.

(* =============================================================== *)
(** ** More on the console loop *)

Lemma blank_not_sentinel (line : str) :
  is_blank line -> is_sentinel line = false.
Proof.
  intro H. unfold is_sentinel, lower. rewrite (lower_from_spaces _ _ _ H).
  cbn [existsb]. unfold str_eqb.
  destruct (list_eq_dec N.eq_dec line (lit "quit")) as [->|_];
    [inversion H; discriminate|].
  destruct (list_eq_dec N.eq_dec line (lit "exit")) as [->|_];
    [inversion H; discriminate|reflexivity].
Qed.

Lemma strip_blank (line : str) : is_blank line -> strip line = [].
Proof.
  intro H. unfold strip.
  rewrite <- (app_nil_r line), (lstrip_spaces _ [] H). reflexivity.
Qed.


Lemma posts_app (a b : trace) : posts (a ++ b) = posts a ++ posts b.
Proof. apply filter_app. Qed.

(** The turn of a line that is no sentinel and not blank. *)
Lemma main_turn_question (line : str) (t : trace) :
  is_sentinel line = false ->
  strip line <> [] ->
  exists outcome,
    get_llm_response (build_prompt (preprocess_question line))
      (t ++ before_call line)
    = (outcome, (t ++ before_call line) ++ sent_for line)
    /\ main_turn (Line line) t
       = (Return Continue,
          t ++ before_call line ++ sent_for line ++ turn_end outcome).
Proof.
  intros Hs Hb.
  destruct (get_llm_response_trace (build_prompt (preprocess_question line))
              (t ++ before_call line)) as [outcome E].
  exists outcome. split; [exact E|].
  unfold main_turn, bind, emit.
  assert (T : forall t0,
             try_except (handle_line line) on_loop_error t0
             = try_except (answer_question line) on_loop_error t0).
  { intro t0. unfold try_except, handle_line. fold (is_sentinel line). rewrite Hs.
    destruct (strip line); [contradiction|reflexivity]. }
  rewrite T.
  rewrite (answer_question_run line _ outcome
             ((t ++ before_call line) ++ sent_for line)).
  - now rewrite <- !app_assoc.
  - etransitivity; [|exact E]. f_equal.
    unfold before_call, PROMPT. now rewrite <- app_assoc.
Qed.

(** What any turn does: it returns, it leaves the loop on an interrupt
    at the prompt and on a sentinel, it only adds to the trace, and it
    sends at most one request, none without a credential or without a
    line. *)
Lemma main_turn_events (inp : input_outcome) (t : trace) :
  exists s events,
    main_turn inp t = (Return s, t ++ events)
    /\ (inp = Interrupted \/ (exists l, inp = Line l /\ is_sentinel l = true) ->
        s = Break)
    /\ List.length (posts events) <= (if is_Line inp then 1 else 0)
    /\ (key_missing = true -> posts events = []).
Proof.
  destruct inp as [line| |].
  - destruct (is_sentinel line) eqn:Hs.
    + exists Break, [PROMPT; Printed GOODBYE]. split; [|split; [|split]].
      * unfold main_turn, bind, emit, try_except, handle_line.
        fold (is_sentinel line). rewrite Hs.
        unfold print, emit, bind, ret, PROMPT. now rewrite <- app_assoc.
      * reflexivity.
      * cbn. lia.
      * reflexivity.
    + destruct (strip line) as [|c r] eqn:S.
      * exists Continue, [PROMPT]. split; [|split; [|split]].
        -- unfold main_turn, bind, emit, try_except, handle_line.
           fold (is_sentinel line). rewrite Hs, S. reflexivity.
        -- intros [H|(l & H & Hl)]; [discriminate|]. injection H as <-. congruence.
        -- cbn. lia.
        -- reflexivity.
      * destruct (main_turn_question line t Hs) as (outcome & _ & E);
          [rewrite S; discriminate|].
        assert (P : posts (turn_end outcome) = []).
        { destruct outcome as [answer|e]; [|reflexivity].
          unfold turn_end, after_call. destruct (encodable (format answer)); reflexivity. }
        exists Continue. eexists. split; [exact E|]. split; [|split].
        -- intros [H|(l & H & Hl)]; [discriminate|]. injection H as <-. congruence.
        -- rewrite !posts_app, P. unfold sent_for.
           destruct key_missing; cbn; lia.
        -- intro K. rewrite !posts_app, P. unfold sent_for. rewrite K. reflexivity.
  - exists Continue, eof_report. split; [|split; [|split]].
    + unfold main_turn, bind, emit, on_loop_error, print, emit, bind, ret, eof_report, PROMPT.
      now rewrite <- app_assoc.
    + intros [H|(l & H & _)]; discriminate.
    + cbn. lia.
    + reflexivity.
  - exists Break, [PROMPT; Printed GOODBYE]. split; [|split; [|split]].
    + unfold main_turn, bind, emit, print, emit, bind, ret, PROMPT.
      now rewrite <- app_assoc.
    + reflexivity.
    + cbn. lia.
    + reflexivity.
Qed.

(** What any run of the loop does to the trace. *)
Lemma main_loop_events (inputs : list input_outcome) (t : trace) :
  exists e events,
    main_loop inputs t = (Return e, t ++ events)
    /\ List.length (posts events) <= List.length (filter is_Line inputs)
    /\ (key_missing = true -> posts events = []).
Proof.
  revert t. induction inputs as [|inp rest IH]; intro t.
  - exists Waiting, []. rewrite app_nil_r. repeat split; cbn; auto.
  - destruct (main_turn_events inp t) as (s & ev & E & _ & Hn & Hk).
    cbn [main_loop]. unfold bind. rewrite E. destruct s.
    + exists Exited, ev. split; [reflexivity|]. split; [|exact Hk].
      cbn [filter]. destruct (is_Line inp); cbn [List.length]; lia.
    + destruct (IH (t ++ ev)) as (e & ev' & E' & Hn' & Hk').
      exists e, (ev ++ ev'). rewrite E', <- app_assoc. split; [reflexivity|].
      rewrite posts_app, length_app. split.
      * cbn [filter]. destruct (is_Line inp); cbn [List.length]; lia.
      * intro K. now rewrite (Hk K), (Hk' K).
Qed.

Lemma main_banner (inputs : list input_outcome) (t : trace) :
  main inputs t
  = main_loop inputs
      (t ++ [ Printed (rule "=");
              Printed (lit " LLM Q&A CLI Application (" ++ MODEL_NAME ++ lit ")");
              Printed (rule "=");
              Printed (lit "Enter 'quit' or 'exit' to stop the application.");
              Printed (rule "-") ]).
Proof.
  unfold main, bind, print, emit. now rewrite <- !app_assoc.
Qed.

(** X12. A blank line (empty, or whitespace only) does nothing but
    prompt again: the turn goes on with the loop, the Normalizer is not
    called and nothing is printed or sent. *)
Theorem main_turn_blank_line (line : str) (t : trace) :
  is_blank line ->
  main_turn (Line line) t = (Return Continue, t ++ [PROMPT]).
Proof.
  intro H. unfold main_turn, bind, emit, try_except, handle_line.
  fold (is_sentinel line). rewrite (blank_not_sentinel line H), (strip_blank line H).
  reflexivity.
Qed.




(** X16. Once the loop is left, the rest of the input is not read: a
    run that exits on a script of inputs does exactly the same on any
    longer script. *)
Theorem main_loop_stops_reading
    (inputs more : list input_outcome) (t t' : trace) :
  main_loop inputs t = (Return Exited, t') ->
  main_loop (inputs ++ more) t = (Return Exited, t').
Proof.
  revert t. induction inputs as [|inp rest IH]; intros t H.
  - discriminate.
  - cbn [app main_loop] in *. unfold bind in *.
    destruct (main_turn inp t) as [[[|]|e] t1]; [exact H|now apply IH|exact H].
Qed.

(** X17. The end of the input does not end the loop: [input] raises,
    the loop reports the error and prompts again, so [n] reads at the
    end of the input give [n] prompts and [n] reports, and the program
    is still in the loop. *)
Theorem main_loop_end_of_input (n : nat) (t : trace) :
  main_loop (repeat EndOfInput n) t
  = (Return Waiting, t ++ List.concat (repeat eof_report n)).
Proof.
  revert t. induction n as [|n IH]; intro t.
  - cbn. now rewrite app_nil_r.
  - cbn [repeat main_loop List.concat]. unfold bind.
    replace (main_turn EndOfInput t) with (Return Continue, t ++ eof_report).
    2:{ unfold main_turn, bind, emit, on_loop_error, print, emit, bind, ret,
          eof_report, PROMPT. now rewrite <- app_assoc. }
    now rewrite IH, <- app_assoc.
Qed.

(** X18. Without a credential a whole session sends no request,
    whatever is typed: the requests in the trace after [main] are those
    that were there before. *)
Theorem main_without_key_sends_nothing
    (inputs : list input_outcome) (t : trace) :
  key_absent ->
  posts (snd (main inputs t)) = posts t.
Proof.
  intro K. apply key_absent_missing in K. rewrite main_banner.
  destruct (main_loop_events inputs
              (t ++ [ Printed (rule "=");
                      Printed (lit " LLM Q&A CLI Application (" ++ MODEL_NAME ++ lit ")");
                      Printed (rule "=");
                      Printed (lit "Enter 'quit' or 'exit' to stop the application.");
                      Printed (rule "-") ]))
    as (e & ev & E & _ & Hk).
  rewrite E. cbn [snd]. rewrite !posts_app, (Hk K). cbn. now rewrite !app_nil_r.
Qed.

(** X19. A session never raises and sends at most one request for each
    line the user enters: the number of requests [main] adds to the trace
    is at most the number of lines in its input. *)
Theorem main_requests_bounded (inputs : list input_outcome) (t : trace) :
  exists e t',
    main inputs t = (Return e, t')
    /\ List.length (posts t')
       <= List.length (posts t) + List.length (filter is_Line inputs).
Proof.
  rewrite main_banner.
  destruct (main_loop_events inputs
              (t ++ [ Printed (rule "=");
                      Printed (lit " LLM Q&A CLI Application (" ++ MODEL_NAME ++ lit ")");
                      Printed (rule "=");
                      Printed (lit "Enter 'quit' or 'exit' to stop the application.");
                      Printed (rule "-") ]))
    as (e & ev & E & Hn & _).
  rewrite E. do 2 eexists. split; [reflexivity|].
  rewrite !posts_app, !length_app. cbn [posts filter is_Posted List.length]. lia.
Qed.

End Program.

(* ================================================================= *)
(** ** The program at work *)

Example preprocess_rust :
  preprocess_question no_case (lit "What is Rust's ownership model?")
  = lit "what is rusts ownership model".
Proof. reflexivity. Qed.

Example preprocess_empty : preprocess_question no_case [] = [].
Proof. reflexivity. Qed.

Example preprocess_blank : preprocess_question no_case (lit "   ") = [].
Proof. reflexivity. Qed.

Example preprocess_tabs :
  preprocess_question no_case (9%N :: lit " Hello,  WORLD 42!" ++ [10%N])
  = lit "hello world 42".
Proof. reflexivity. Qed.

(** The Kelvin sign becomes a letter that is kept; the accented letter
    stays outside ASCII and is removed. *)
Example preprocess_unicode :
  preprocess_question two_cases [0x212A%N; 0xC9%N; 0x3000%N; 0x41%N]
  = lit "k a".
Proof. reflexivity. Qed.

Example split_runs :
  split (lit "  ab  c d ") = [lit "ab"; lit "c"; lit "d"].
Proof. reflexivity. Qed.

Example strip_both : strip (lit "  quit ") = lit "quit".
Proof. reflexivity. Qed.

Example str_of_int_500 : str_of_int 500 = lit "500".
Proof. reflexivity. Qed.

Example response_without_key :
  get_llm_response plain_repr plain_str_exception None
    (always (Responds paris_response)) (lit "capital of France") []
  = (Return (JStr (lit "ERROR: API Key not found. Please set GEMINI_API_KEY in your .env file.")),
     []).
Proof. reflexivity. Qed.

Example response_paris :
  fst (get_llm_response plain_repr plain_str_exception SAMPLE_KEY
         (always (Responds paris_response)) (lit "capital of France") [])
  = Return (JStr (lit "Paris")).
Proof. reflexivity. Qed.

Example response_server_error :
  fst (get_llm_response plain_repr plain_str_exception SAMPLE_KEY
         (always (Responds server_error)) (lit "capital of France") [])
  = Return (JStr (lit "HTTP Error: Could not connect to API. Status code: 500. Response: Internal Server Error")).
Proof. reflexivity. Qed.

(** A body that is a list: the error of [data.get] is caught by the last
    handler. *)
Example response_list_body :
  fst (get_llm_response plain_repr plain_str_exception SAMPLE_KEY
         (always (Responds {| status_code := 200; text := lit "[]";
                              json_body := Some (JList []) |}))
         (lit "capital of France") [])
  = Return (JStr (lit "An unexpected error occurred: <exception>")).
Proof. reflexivity. Qed.

(** A body with the error shape. *)
Example response_api_error :
  fst (get_llm_response plain_repr plain_str_exception SAMPLE_KEY
         (always (Responds {| status_code := 200; text := [];
                              json_body := Some (JDict [(lit "error",
                                 JDict [(lit "message", JStr (lit "quota"))])]) |}))
         (lit "capital of France") [])
  = Return (JStr (lit "API Error: quota")).
Proof. reflexivity. Qed.

(** A session: a blank line, a question, a sentinel.  The blank line
    only prompts again; the question is normalized and sent; "Quit"
    ends the run. *)
Example session :
  let run := main no_case plain_repr plain_str_exception utf8_console SAMPLE_KEY
               (always (Responds paris_response))
               [Line (lit "  "); Line (lit "Capital of France?"); Line (lit "Quit");
                Line (lit "never read")] [] in
  fst run = Return Exited
  /\ filter is_Normalized (snd run) = [Normalized (lit "Capital of France?")]
  /\ posts (snd run)
     = [Posted (build_request SAMPLE_KEY
                  (build_prompt (lit "capital of france")))]
  /\ List.length (filter (fun e => match e with Prompted _ => true | _ => false end)
                         (snd run)) = 3.
Proof. repeat split; reflexivity. Qed.

(** At the end of the input the loop reports the error and prompts
    again. *)
Example session_end_of_input :
  main_turn no_case plain_repr plain_str_exception utf8_console SAMPLE_KEY
    (always (Responds paris_response)) EndOfInput []
  = (Return Continue,
     [Prompted (NEWLINE :: lit "Ask a question: ");
      Printed (lit "An unexpected error occurred in the main loop: <exception>")]).
Proof. reflexivity. Qed.

(** An answer the console cannot encode: the frame is opened, the
    answer and the closing rule are not printed, the loop reports the
    error and goes on. *)
Example session_unencodable_answer :
  main_turn no_case plain_repr plain_str_exception ascii_console SAMPLE_KEY
    (always (Responds snowman_response)) (Line (lit "Weather?")) []
  = (Return Continue,
     before_call no_case (lit "Weather?")
     ++ [ Posted (build_request SAMPLE_KEY (build_prompt (lit "weather")));
          Printed (NEWLINE :: rule "=");
          Printed (lit " FINAL ANSWER");
          Printed (rule "=");
          Printed (lit "An unexpected error occurred in the main loop: <exception>") ]).
Proof. reflexivity. Qed.

(** The same answer on a console that has the character. *)
Example session_encodable_answer :
  main_turn no_case plain_repr plain_str_exception utf8_console SAMPLE_KEY
    (always (Responds snowman_response)) (Line (lit "Weather?")) []
  = (Return Continue,
     before_call no_case (lit "Weather?")
     ++ [ Posted (build_request SAMPLE_KEY (build_prompt (lit "weather")));
          Printed (NEWLINE :: rule "=");
          Printed (lit " FINAL ANSWER");
          Printed (rule "=");
          Printed (lit "Snow " ++ [0x2603%N]);
          Printed (rule "-") ]).
Proof. reflexivity. Qed.

(** An [HTTPError] without response: the call raises, the loop reports
    the error before any frame and goes on. *)
Example session_http_error_without_response :
  main_turn no_case plain_repr plain_str_exception utf8_console SAMPLE_KEY
    (always (Fails (HTTPError None))) (Line (lit "Weather?")) []
  = (Return Continue,
     before_call no_case (lit "Weather?")
     ++ [ Posted (build_request SAMPLE_KEY (build_prompt (lit "weather")));
          Printed (lit "An unexpected error occurred in the main loop: <exception>") ]).
Proof. reflexivity. Qed.

(* ================================================================= *)
(** ** The claims at concrete inputs *)

Lemma sample_key_present : key_present SAMPLE_KEY.
Proof. exists (lit "sample-key"). split; [reflexivity|discriminate]. Defined.

Lemma paris_has_success_shape :
  success_shape (JStr (lit "Paris")) (answer_body (JStr (lit "Paris"))).
Proof.
  unfold success_shape, answer_body. do 6 eexists.
  repeat split; reflexivity.
Defined.

(** C3 at a concrete input: no variable set, a prompt, an empty trace. *)
Lemma get_llm_response_without_key_witness :
  key_absent None
  /\ exists answer,
       get_llm_response plain_repr plain_str_exception None
         (always (Responds paris_response)) (lit "capital of France") []
       = (Return (JStr answer), [])
       /\ contains (lit "API Key not found") answer.
Proof.
  split; [left; reflexivity|].
  apply get_llm_response_without_key. left. reflexivity.
Defined.

(** C4 at a concrete input: the body with answer text "Paris". *)
Lemma get_llm_response_paris_witness :
  get_llm_response plain_repr plain_str_exception SAMPLE_KEY
    (always (Responds paris_response)) (lit "capital of France") []
  = (Return (JStr (lit "Paris")),
     [] ++ [Posted (build_request SAMPLE_KEY (lit "capital of France"))]).
Proof.
  apply (get_llm_response_paris plain_repr plain_str_exception SAMPLE_KEY
           (always (Responds paris_response)) (lit "capital of France") []
           paris_response (answer_body (JStr (lit "Paris")))).
  - exact sample_key_present.
  - reflexivity.
  - left. reflexivity.
  - reflexivity.
  - exact paris_has_success_shape.
Defined.

(** C5 at a concrete input: a response with status 500. *)
Lemma get_llm_response_http_500_witness :
  exists answer,
    get_llm_response plain_repr plain_str_exception SAMPLE_KEY
      (always (Responds server_error)) (lit "capital of France") []
    = (Return (JStr answer),
       [] ++ [Posted (build_request SAMPLE_KEY (lit "capital of France"))])
    /\ answer = lit "HTTP Error: Could not connect to API. Status code: 500. Response: "
                ++ text server_error
    /\ contains (lit "HTTP Error") answer
    /\ contains (lit "500") answer.
Proof.
  apply (get_llm_response_http_500 plain_repr plain_str_exception SAMPLE_KEY
           (always (Responds server_error)) (lit "capital of France") []
           server_error).
  - exact sample_key_present.
  - reflexivity.
  - reflexivity.
Defined.

(** C6 at a concrete input: a read timeout. *)
Lemma get_llm_response_timeout_witness :
  exists answer,
    get_llm_response plain_repr plain_str_exception SAMPLE_KEY
      (always (Fails (ReadTimeout (lit "Read timed out."))))
      (lit "capital of France") []
    = (Return (JStr answer),
       [] ++ [Posted (build_request SAMPLE_KEY (lit "capital of France"))])
    /\ answer = lit "Timeout Error: The request took too long to complete."
    /\ contains (lit "Timeout Error") answer.
Proof.
  apply (get_llm_response_timeout plain_repr plain_str_exception SAMPLE_KEY
           (always (Fails (ReadTimeout (lit "Read timed out."))))
           (lit "capital of France") [] (ReadTimeout (lit "Read timed out."))).
  - exact sample_key_present.
  - reflexivity.
  - reflexivity.
  - reflexivity.
Defined.

(** C6 as stated fails on a connect timeout: the exception is a
    [Timeout], the [ConnectionError] clause comes first and takes it,
    and the message returned does not contain "Timeout Error". *)
Lemma connect_timeout_reported_as_connection_error :
  let e := ConnectTimeout (lit "Connection to host timed out.") in
  is_Timeout e = true
  /\ get_llm_response plain_repr plain_str_exception SAMPLE_KEY
       (always (Fails e)) (lit "capital of France") []
     = (Return (JStr (lit "Connection Error: Failed to connect to the internet or API endpoint.")),
        [Posted (build_request SAMPLE_KEY (lit "capital of France"))])
  /\ ~ contains (lit "Timeout Error")
         (lit "Connection Error: Failed to connect to the internet or API endpoint.").
Proof.
  cbv zeta. split; [reflexivity|]. split; [reflexivity|].
  intro H. apply containsb_contains in H. vm_compute in H. discriminate.
Qed.

(** C7. The claim, that the call never raises and always returns a
    string, is what the annotation [-> str] and the docstring of
    [get_llm_response] promise, and the code breaks it at two inputs.
    On a successful response whose text part is the number 42, line 83
    returns the number, which is not a string.  On a request that fails
    with an [HTTPError] that has no response, the handler of line 91
    reads [e.response.status_code], and the [AttributeError] of that
    leaves the function. *)
Theorem get_llm_response_breaks_its_contract :
  (get_llm_response plain_repr plain_str_exception SAMPLE_KEY
     (always (Responds number_response)) (lit "capital of France") []
   = (Return (JInt 42),
      [Posted (build_request SAMPLE_KEY (lit "capital of France"))])
   /\ ~ is_str (JInt 42))
  /\ get_llm_response plain_repr plain_str_exception SAMPLE_KEY
       (always (Fails (HTTPError None))) (lit "capital of France") []
     = (Raise (AttributeError JNull (lit "status_code")),
        [Posted (build_request SAMPLE_KEY (lit "capital of France"))]).
Proof.
  split; [split|]; [reflexivity| |reflexivity].
  intros [s E]. discriminate.
Qed.

(** C8 at a concrete input: a request that fails to connect is sent
    once. *)
Lemma get_llm_response_one_post_witness :
  let net := always (Fails (ConnectionError (lit "Name or service not known"))) in
  exists outcome,
    get_llm_response plain_repr plain_str_exception SAMPLE_KEY net
      (lit "capital of France") []
    = (outcome, [] ++ [Posted (build_request SAMPLE_KEY (lit "capital of France"))])
    /\ posts ([] ++ [Posted (build_request SAMPLE_KEY (lit "capital of France"))])
       = posts [] ++ [Posted (build_request SAMPLE_KEY (lit "capital of France"))]
    /\ List.length
         (posts (snd (get_llm_response plain_repr plain_str_exception SAMPLE_KEY net
                        (lit "capital of France") [])))
       = S (List.length (posts [])).
Proof.
  cbv zeta.
  apply (get_llm_response_one_post plain_repr plain_str_exception SAMPLE_KEY
           (always (Fails (ConnectionError (lit "Name or service not known"))))
           (lit "capital of France") []).
  exact sample_key_present.
Defined.




(* ================================================================= *)
(** ** The further properties at concrete inputs *)

(** X1 at a tab, a no-break space and an ideographic space. *)
Lemma preprocess_question_blank_witness :
  preprocess_question no_case [0x09%N; 0xA0%N; 0x3000%N] = [].
Proof.
  apply (preprocess_question_blank no_case [0x09%N; 0xA0%N; 0x3000%N]).
  repeat constructor.
Defined.

(** X3 at two spellings of one question. *)
Lemma preprocess_question_ignores_case_witness :
  preprocess_question no_case (lit "What IS Rust?")
  = preprocess_question no_case (lit "wHAT is rUST?").
Proof.
  apply (preprocess_question_ignores_case no_case
           (lit "What IS Rust?") (lit "wHAT is rUST?")).
  - repeat constructor.
  - repeat constructor.
  - reflexivity.
Defined.

(** X4 at a 404 whose body has the success shape. *)
Lemma get_llm_response_http_failure_witness :
  get_llm_response plain_repr plain_str_exception SAMPLE_KEY
    (always (Responds not_found)) (lit "capital of France") []
  = (Return (JStr (lit "HTTP Error: Could not connect to API. Status code: "
                   ++ str_of_int 404 ++ lit ". Response: " ++ lit "model not found")),
     [] ++ [Posted (build_request SAMPLE_KEY (lit "capital of France"))]).
Proof.
  apply (get_llm_response_http_failure plain_repr plain_str_exception SAMPLE_KEY
           (always (Responds not_found)) (lit "capital of France") [] not_found).
  - exact sample_key_present.
  - reflexivity.
  - unfold http_failure. cbn. lia.
Defined.

(** X5 at a connect timeout. *)
Lemma get_llm_response_connection_error_witness :
  get_llm_response plain_repr plain_str_exception SAMPLE_KEY
    (always (Fails (ConnectTimeout (lit "Connection to host timed out."))))
    (lit "capital of France") []
  = (Return (JStr (lit "Connection Error: Failed to connect to the internet or API endpoint.")),
     [] ++ [Posted (build_request SAMPLE_KEY (lit "capital of France"))]).
Proof.
  apply (get_llm_response_connection_error plain_repr plain_str_exception
           SAMPLE_KEY
           (always (Fails (ConnectTimeout (lit "Connection to host timed out."))))
           (lit "capital of France") []
           (ConnectTimeout (lit "Connection to host timed out."))).
  - exact sample_key_present.
  - reflexivity.
  - reflexivity.
Defined.

(** X6 at an exception of another kind. *)
Lemma get_llm_response_unexpected_failure_witness :
  get_llm_response plain_repr plain_str_exception SAMPLE_KEY
    (always (Fails (OtherException (lit "Exceeded 30 redirects."))))
    (lit "capital of France") []
  = (Return (JStr (lit "An unexpected error occurred: "
                   ++ plain_str_exception
                        (OtherException (lit "Exceeded 30 redirects.")))),
     [] ++ [Posted (build_request SAMPLE_KEY (lit "capital of France"))]).
Proof.
  apply (get_llm_response_unexpected_failure plain_repr plain_str_exception
           SAMPLE_KEY
           (always (Fails (OtherException (lit "Exceeded 30 redirects."))))
           (lit "capital of France") []
           (OtherException (lit "Exceeded 30 redirects."))).
  - exact sample_key_present.
  - reflexivity.
  - reflexivity.
  - reflexivity.
  - reflexivity.
Defined.

(** X7 at a page of HTML served with status 200. *)
Lemma get_llm_response_not_json_witness :
  get_llm_response plain_repr plain_str_exception SAMPLE_KEY
    (always (Responds html_page)) (lit "capital of France") []
  = (Return (JStr (lit "An unexpected error occurred: "
                   ++ plain_str_exception JSONDecodeError)),
     [] ++ [Posted (build_request SAMPLE_KEY (lit "capital of France"))]).
Proof.
  apply (get_llm_response_not_json plain_repr plain_str_exception SAMPLE_KEY
           (always (Responds html_page)) (lit "capital of France") [] html_page).
  - exact sample_key_present.
  - reflexivity.
  - left. reflexivity.
  - reflexivity.
Defined.

Lemma verbatim_has_success_shape :
  success_shape verbatim_answer (answer_body verbatim_answer).
Proof.
  unfold success_shape, answer_body. do 6 eexists.
  repeat split; reflexivity.
Defined.

(** X8 at an answer with spaces, capitals and a line end. *)
Lemma get_llm_response_answer_unchanged_witness :
  get_llm_response plain_repr plain_str_exception SAMPLE_KEY
    (always (Responds verbatim_response)) (lit "capital of France") []
  = (Return verbatim_answer,
     [] ++ [Posted (build_request SAMPLE_KEY (lit "capital of France"))]).
Proof.
  apply (get_llm_response_answer_unchanged plain_repr plain_str_exception
           SAMPLE_KEY (always (Responds verbatim_response))
           (lit "capital of France") [] verbatim_response
           (answer_body verbatim_answer) verbatim_answer).
  - exact sample_key_present.
  - reflexivity.
  - left. reflexivity.
  - reflexivity.
  - exact verbatim_has_success_shape.
Defined.

(** X9 at the error shape, with no candidates at all. *)
Lemma get_llm_response_api_error_witness :
  get_llm_response plain_repr plain_str_exception SAMPLE_KEY
    (always (Responds quota_response)) (lit "capital of France") []
  = (Return (JStr (lit "API Error: " ++ lit "Quota exceeded")),
     [] ++ [Posted (build_request SAMPLE_KEY (lit "capital of France"))]).
Proof.
  apply (get_llm_response_api_error plain_repr plain_str_exception SAMPLE_KEY
           (always (Responds quota_response)) (lit "capital of France") []
           quota_response quota_fields
           [ (lit "code", JInt 429); (lit "message", JStr (lit "Quota exceeded")) ]
           (lit "Quota exceeded")).
  - exact sample_key_present.
  - reflexivity.
  - left. reflexivity.
  - reflexivity.
  - left. exact I.
  - reflexivity.
  - reflexivity.
Defined.

(** X10 at a candidate without content and a body without error. *)
Lemma get_llm_response_unknown_api_error_witness :
  get_llm_response plain_repr plain_str_exception SAMPLE_KEY
    (always (Responds blocked_response)) (lit "capital of France") []
  = (Return (JStr (lit "API Error: Unknown API Error.")),
     [] ++ [Posted (build_request SAMPLE_KEY (lit "capital of France"))]).
Proof.
  apply (get_llm_response_unknown_api_error plain_repr plain_str_exception
           SAMPLE_KEY (always (Responds blocked_response))
           (lit "capital of France") [] blocked_response blocked_fields).
  - exact sample_key_present.
  - reflexivity.
  - left. reflexivity.
  - reflexivity.
  - right. exists [ (lit "finishReason", JStr (lit "SAFETY")) ], [].
    split; [reflexivity|exact I].
  - left. reflexivity.
Defined.

(** X11 at a content that names a role and has no parts. *)
Lemma get_llm_response_content_without_parts_witness :
  exists e,
    get_llm_response plain_repr plain_str_exception SAMPLE_KEY
      (always (Responds role_only_response)) (lit "capital of France") []
    = (Return (JStr (lit "An unexpected error occurred: " ++ plain_str_exception e)),
       [] ++ [Posted (build_request SAMPLE_KEY (lit "capital of France"))])
    /\ (lookup (lit "parts") [ (lit "role", JStr (lit "model")) ] = None ->
        e = KeyError (JStr (lit "parts")))
    /\ (lookup (lit "parts") [ (lit "role", JStr (lit "model")) ] = Some (JList []) ->
        e = IndexError (JList [])).
Proof.
  apply (get_llm_response_content_without_parts plain_repr plain_str_exception
           SAMPLE_KEY (always (Responds role_only_response))
           (lit "capital of France") [] role_only_response role_only_fields
           [ (lit "content", JDict [ (lit "role", JStr (lit "model")) ]) ]
           [ (lit "role", JStr (lit "model")) ] []).
  - exact sample_key_present.
  - reflexivity.
  - left. reflexivity.
  - reflexivity.
  - reflexivity.
  - reflexivity.
  - discriminate.
  - left. reflexivity.
Defined.

(** X12 at a line of two spaces and a tab. *)
Lemma main_turn_blank_line_witness :
  main_turn no_case plain_repr plain_str_exception utf8_console SAMPLE_KEY
    (always (Responds paris_response)) (Line (lit "  " ++ [0x09%N])) []
  = (Return Continue, [] ++ [PROMPT]).
Proof.
  apply (main_turn_blank_line no_case plain_repr plain_str_exception utf8_console SAMPLE_KEY
           (always (Responds paris_response)) (lit "  " ++ [0x09%N]) []).
  repeat constructor.
Defined.



(** X16 at a run that exits on "exit", followed by a line that is never
    read. *)
Lemma main_loop_stops_reading_witness :
  main_loop no_case plain_repr plain_str_exception utf8_console SAMPLE_KEY
    (always (Responds paris_response))
    ([Line (lit "exit")] ++ [Line (lit "Capital of France?")]) []
  = (Return Exited, [PROMPT; Printed GOODBYE]).
Proof.
  apply (main_loop_stops_reading no_case plain_repr plain_str_exception utf8_console
           SAMPLE_KEY (always (Responds paris_response))
           [Line (lit "exit")] [Line (lit "Capital of France?")] []
           [PROMPT; Printed GOODBYE]).
  reflexivity.
Defined.

(** X18 at a session of two questions without a credential. *)
Lemma main_without_key_sends_nothing_witness :
  posts (snd (main no_case plain_repr plain_str_exception utf8_console None
                (always (Responds paris_response))
                [Line (lit "Capital of France?"); Line (lit "And of Spain?")] []))
  = posts [].
Proof.
  apply (main_without_key_sends_nothing no_case plain_repr plain_str_exception utf8_console
           None (always (Responds paris_response))
           [Line (lit "Capital of France?"); Line (lit "And of Spain?")] []).
  left. reflexivity.
Defined.
